(** * MugDesigner (designer.js): constraint engine, history manager,
      layer reordering and texture-sync debounce.

    Shallow embedding of the parts of [class MugDesigner] that the
    specification's testable properties talk about.  JavaScript numbers are
    idealised as exact rationals ([Q]), so rounding, [NaN] and the infinities
    of a division by zero are outside the model (the results that involve a
    division assume a positive divisor); JavaScript arrays are lists in array
    order (index 0 first, [push] appends at the end, [pop] takes from the
    end, [shift] drops index 0).  Time is logical, in milliseconds. *)

From Stdlib Require Import String QArith Qabs Lqa ZArith List Bool Lia.
From Stdlib Require Import Permutation Qminmax.
Import ListNotations.

(* ================================================================= *)
(** ** JavaScript array primitives used by the class *)

Module JsArray.

Section Ops.
Context {A : Type}.

(** [arr.push(x)] *)
Definition push (arr : list A) (x : A) : list A := arr ++ [x].

(** [arr.pop()]: the removed last element ([None] models [undefined]) and
    the remaining array. *)
Definition pop (arr : list A) : option A * list A :=
  match rev arr with
  | [] => (None, [])
  | x :: r => (Some x, rev r)
  end.

(** [arr.shift()] as used by the program: the result is dropped. *)
Definition shift (arr : list A) : list A := tl arr.

(** [arr[arr.length - 1]] *)
Definition top (arr : list A) : option A := fst (pop arr).

(** [arr.splice(start, 0, x)]: a negative [start] counts from the end and
    is clipped at 0, a [start] past the end is clipped to the length. *)
Definition splice_insert (arr : list A) (start : Z) (x : A) : list A :=
  let len := Z.of_nat (length arr) in
  let s := if (start <? 0)%Z then Z.max (len + start) 0 else Z.min start len in
  firstn (Z.to_nat s) arr ++ x :: skipn (Z.to_nat s) arr.

End Ops.

End JsArray.

(* ================================================================= *)
(** ** History manager: [saveHistory], the undo handler, [redo] *)

Module History.
Import JsArray.

Section Manager.

(** The 2D scene library is an external collaborator: the scene is whatever
    [this.canvas] holds, a snapshot is the string
    [JSON.stringify(this.canvas.toJSON())], and
    [this.canvas.loadFromJSON(s, ...)] replaces the scene by the one the
    string describes.  It does so by removing the objects of the canvas one
    by one and then inserting the objects of the snapshot one by one, and
    after each of these steps it runs the ["object:removed"] or
    ["object:added"] handler of the class: [loadEvents c s] lists the canvas
    as each of these handler calls finds it, in order, and
    [loadFromJSON c s] is the canvas once the load is complete. *)
Variable Scene : Type.
Variable Snapshot : Type.
Variable toJSON : Scene -> Snapshot.
Variable loadFromJSON : Scene -> Snapshot -> Scene.
Variable loadEvents : Scene -> Snapshot -> list Scene.

(** The fields of [MugDesigner] the history manager reads and writes. *)
Record Designer : Type := mkDesigner {
  canvas : Scene;
  history : list Snapshot;
  redoHistory : list Snapshot
}.

(** The cap of [saveHistory]: [if (this.history.length > 50) this.history.shift()] *)
Definition HISTORY_CAP : nat := 50.

(** [saveHistory()] *)
Definition saveHistory (d : Designer) : Designer :=
  let currentState := toJSON (canvas d) in
  let h := push (history d) currentState in
  {| canvas := canvas d;
     history := if HISTORY_CAP <? length h then shift h else h;
     redoHistory := [] |}.

(** A scene mutation [A] applied to the canvas (add, remove, modify). *)
Definition mutate (A : Scene -> Scene) (d : Designer) : Designer :=
  {| canvas := A (canvas d); history := history d;
     redoHistory := redoHistory d |}.

(** The handlers registered with [this.canvas.on(...)].  Of their steps only
    [saveHistory] touches the history; ["object:modified"] first runs
    [checkBounds(target)], which may adjust the target inside the scene. *)
Definition onObjectAdded (d : Designer) : Designer := saveHistory d.

Definition onObjectRemoved (d : Designer) : Designer := saveHistory d.

Definition onObjectModified (checkTarget : Scene -> Scene) (d : Designer)
  : Designer := saveHistory (mutate checkTarget d).

(** [n] snapshots in a row, the scene being set to the next element of
    [scenes] before each one. *)
Definition snapshots (scenes : list Scene) (d : Designer) : Designer :=
  fold_left (fun acc s => saveHistory (mutate (fun _ => s) acc)) scenes d.

(** A freshly constructed (or reset) designer: both stacks empty. *)
Definition fresh (s : Scene) : Designer :=
  {| canvas := s; history := []; redoHistory := [] |}.

(** [this.canvas.loadFromJSON(state, ...)] as the history manager lives it:
    one run of the handler (of which [saveHistory] is the step that counts
    here) for every removal and insertion of the load, on the canvas as it
    is at that moment, and the loaded scene at the end. *)
Definition loadIntoCanvas (d : Designer) (state : Snapshot) : Designer :=
  mutate (fun _ => loadFromJSON (canvas d) state)
         (snapshots (loadEvents (canvas d) state) d).

(** The click handler of [undoBtn].  A snapshot is a non-empty JSON string,
    so [if (lastState)] fails only when the array has no last element. *)
Definition undo (d : Designer) : Designer :=
  if 1 <? length (history d) then
    match pop (history d) with
    | (Some popped, h) =>
        let d1 := {| canvas := canvas d; history := h;
                     redoHistory := push (redoHistory d) popped |} in
        match top h with
        | Some lastState => loadIntoCanvas d1 lastState
        | None => d1
        end
    | (None, _) => d
    end
  else d.

(** [redo()] *)
Definition redo (d : Designer) : Designer :=
  if 0 <? length (redoHistory d) then
    match pop (redoHistory d) with
    | (Some state, r) =>
        loadIntoCanvas
          {| canvas := canvas d;
             history := push (history d) (toJSON (canvas d));
             redoHistory := r |}
          state
    | (None, _) => d
    end
  else d.

End Manager.

Arguments canvas {Scene Snapshot} _.
Arguments history {Scene Snapshot} _.
Arguments redoHistory {Scene Snapshot} _.
Arguments mkDesigner {Scene Snapshot} _ _ _.
Arguments saveHistory {Scene Snapshot} toJSON d.
Arguments loadIntoCanvas {Scene Snapshot} toJSON loadFromJSON loadEvents d state.
Arguments undo {Scene Snapshot} toJSON loadFromJSON loadEvents d.
Arguments redo {Scene Snapshot} toJSON loadFromJSON loadEvents d.
Arguments mutate {Scene Snapshot} A d.
Arguments onObjectAdded {Scene Snapshot} toJSON d.
Arguments onObjectRemoved {Scene Snapshot} toJSON d.
Arguments onObjectModified {Scene Snapshot} toJSON checkTarget d.
Arguments snapshots {Scene Snapshot} toJSON scenes d.
Arguments fresh {Scene Snapshot} s.

End History.

(* ================================================================= *)
(** ** The 2D scene objects as the program uses them *)

Module Rect.

(** The result of [getBoundingRect(true)]: [{left, top, width, height}]. *)
Record t : Type := mk { left : Q; top : Q; width : Q; height : Q }.

(** Center of the rectangle. *)
Definition centerX (r : t) : Q := left r + width r / 2.

Definition centerY (r : t) : Q := top r + height r / 2.

(** A point lies in the rectangle, edges included. *)
Definition contains (r : t) (px py : Q) : Prop :=
  left r <= px /\ px <= left r + width r /\
  top r <= py /\ py <= top r + height r.

End Rect.

Module Fabric.

(** JavaScript comparison [a < b] on numbers ([a > b] is [Qltb b a]). *)
Definition Qltb (a b : Q) : bool := negb (Qle_bool b a).

(** [fabric.Point] *)
Record Point : Type := mkPoint { x : Q; y : Q }.

(** The properties of a [fabric.Object] that the constraint engine and the
    layer panel read or write.  [oid] stands for the identity of the
    JavaScript object (the program compares objects with [!==] and
    [indexOf]).  Every object the user can move is created with
    [originX: "center", originY: "center"], so [left]/[top] are the
    coordinates of its center. *)
Record FabricObject : Type := mkObject {
  oid : nat;
  type : string;
  left : Q;
  top : Q;
  width : Q;
  height : Q;
  scaleX : Q;
  scaleY : Q;
  angle : Q;
  excludeFromLayers : bool
}.

(** [obj.getCenterPoint()] for an object whose origin is its center. *)
Definition getCenterPoint (obj : FabricObject) : Point :=
  {| x := left obj; y := top obj |}.

(** [obj.setPositionByOrigin(p, "center", "center")] for such an object. *)
Definition setPositionByOrigin (obj : FabricObject) (p : Point) : FabricObject :=
  {| oid := oid obj; type := type obj;
     left := x p; top := y p;
     width := width obj; height := height obj;
     scaleX := scaleX obj; scaleY := scaleY obj;
     angle := angle obj; excludeFromLayers := excludeFromLayers obj |}.

(** Field updates [obj.scaleX = v], [obj.scaleY = v], [obj.left = v],
    [obj.top = v]. *)
Definition set_scaleX (v : Q) (obj : FabricObject) : FabricObject :=
  {| oid := oid obj; type := type obj; left := left obj; top := top obj;
     width := width obj; height := height obj;
     scaleX := v; scaleY := scaleY obj;
     angle := angle obj; excludeFromLayers := excludeFromLayers obj |}.

Definition set_scaleY (v : Q) (obj : FabricObject) : FabricObject :=
  {| oid := oid obj; type := type obj; left := left obj; top := top obj;
     width := width obj; height := height obj;
     scaleX := scaleX obj; scaleY := v;
     angle := angle obj; excludeFromLayers := excludeFromLayers obj |}.

Definition set_left (v : Q) (obj : FabricObject) : FabricObject :=
  {| oid := oid obj; type := type obj; left := v; top := top obj;
     width := width obj; height := height obj;
     scaleX := scaleX obj; scaleY := scaleY obj;
     angle := angle obj; excludeFromLayers := excludeFromLayers obj |}.

Definition set_top (v : Q) (obj : FabricObject) : FabricObject :=
  {| oid := oid obj; type := type obj; left := left obj; top := v;
     width := width obj; height := height obj;
     scaleX := scaleX obj; scaleY := scaleY obj;
     angle := angle obj; excludeFromLayers := excludeFromLayers obj |}.

(** [obj.type === "i-text"] *)
Definition isText (obj : FabricObject) : bool := String.eqb (type obj) "i-text".

End Fabric.

(* ================================================================= *)
(** ** The warning modal: [showModal] *)

Module Modal.

(** The [#warningModal] element, its message, and the due times (ms) of the
    [setTimeout] callbacks that will hide it. *)
Record t : Type := mk {
  display : bool;
  message : string;
  hideTimers : list Z
}.

Definition hidden : t :=
  {| display := false; message := EmptyString; hideTimers := [] |}.

(** [showModal(message)] called at time [now]. *)
Definition showModal (now : Z) (msg : string) (m : t) : t :=
  {| display := true;
     message := msg;
     hideTimers := hideTimers m ++ [(now + 3000)%Z] |}.

(** The host runs the callbacks that are due at time [now]; each one sets
    [modal.style.display = "none"]. *)
Definition runTimers (now : Z) (m : t) : t :=
  if existsb (fun due => (due <=? now)%Z) (hideTimers m) then
    {| display := false;
       message := message m;
       hideTimers := filter (fun due => negb (due <=? now)%Z) (hideTimers m) |}
  else m.

End Modal.

(* ================================================================= *)
(** ** Constraint engine: [snapToCenter], [checkBounds] *)

Module Constraint.
Import Fabric.

(** Visibility of [this.vGuide] and [this.hGuide]. *)
Record Guides : Type := mkGuides { vGuide : bool; hGuide : bool }.

(** The default of the parameter [snapPx]. *)
Definition DEFAULT_SNAP_PX : Q := 10.

(** [snapToCenter(obj, snapPx)] on a canvas of the given size.  The third
    component tells whether [requestRenderAll] was called. *)
Definition snapToCenter (canvasWidth canvasHeight : Q)
    (obj : FabricObject) (snapPx : Q) : FabricObject * Guides * bool :=
  let center := getCenterPoint obj in
  let '(obj1, v) :=
    if Qltb (Qabs (x center - canvasWidth / 2)) snapPx
    then (setPositionByOrigin obj
            {| x := canvasWidth / 2; y := y center |}, true)
    else (obj, false) in
  let '(obj2, h) :=
    if Qltb (Qabs (y center - canvasHeight / 2)) snapPx
    then (setPositionByOrigin obj1
            {| x := x center; y := canvasHeight / 2 |}, true)
    else (obj1, false) in
  (obj2, {| vGuide := v; hGuide := h |}, v || h).

Definition WARNING : string := "⚠ Element is outside the safe printing area!".

Section Bounds.

(** [obj.getBoundingRect(true)], computed by the scene library. *)
Variable getBoundingRect : FabricObject -> Rect.t.

(** [this.safeRect.getBoundingRect(true)] and
    [this.bleedRect.getBoundingRect(true)]. *)
Variable safe : Rect.t.
Variable bleed : Rect.t.

(** The condition of the first [if] of [checkBounds]. *)
Definition outsideBleed (bounds : Rect.t) : bool :=
  Qltb (Rect.left bounds) (Rect.left bleed)
  || Qltb (Rect.left bleed + Rect.width bleed)
          (Rect.left bounds + Rect.width bounds)
  || Qltb (Rect.top bounds) (Rect.top bleed)
  || Qltb (Rect.top bleed + Rect.height bleed)
          (Rect.top bounds + Rect.height bounds).

(** The body of [if (obj.type === "i-text") { ... }]. *)
Definition clampText (obj : FabricObject) : FabricObject :=
  let objWidth := width obj * scaleX obj in
  let objHeight := height obj * scaleY obj in
  let maxWidth := Rect.width safe in
  let maxHeight := Rect.height safe in
  let '(obj, objWidth) :=
    if Qltb maxWidth objWidth
    then (set_scaleX (maxWidth / width obj) obj, maxWidth)
    else (obj, objWidth) in
  let '(obj, objHeight) :=
    if Qltb maxHeight objHeight
    then (set_scaleY (maxHeight / height obj) obj, maxHeight)
    else (obj, objHeight) in
  let objHalfW := objWidth / 2 in
  let objHalfH := objHeight / 2 in
  let minX := Rect.left safe + objHalfW in
  let maxX := Rect.left safe + Rect.width safe - objHalfW in
  let minY := Rect.top safe + objHalfH in
  let maxY := Rect.top safe + Rect.height safe - objHalfH in
  let obj := if Qltb (left obj) minX then set_left minX obj else obj in
  let obj := if Qltb maxX (left obj) then set_left maxX obj else obj in
  let obj := if Qltb (top obj) minY then set_top minY obj else obj in
  let obj := if Qltb maxY (top obj) then set_top maxY obj else obj in
  obj.

(** The scene library's bounding rectangle of an object whose origin is its
    center is centered on ([left], [top]). *)
Definition boundsCentered (obj : FabricObject) : Prop :=
  Rect.centerX (getBoundingRect obj) == left obj /\
  Rect.centerY (getBoundingRect obj) == top obj.

(** [checkBounds(obj)] called at time [now] on a non-null object: the object
    afterwards and the warning modal afterwards. *)
Definition checkBoundsObj (now : Z) (obj : FabricObject) (m : Modal.t)
  : FabricObject * Modal.t :=
  let bounds := getBoundingRect obj in
  let m := if outsideBleed bounds then Modal.showModal now WARNING m else m in
  let obj := if isText obj then clampText obj else obj in
  (obj, m).

(** [checkBounds(obj)]; [None] is a null or undefined argument
    ([if (!obj) return]). *)
Definition checkBounds (now : Z) (obj : option FabricObject) (m : Modal.t)
  : option FabricObject * Modal.t :=
  match obj with
  | None => (None, m)
  | Some o => let '(o', m') := checkBoundsObj now o m in (Some o', m')
  end.

End Bounds.

End Constraint.

(* ================================================================= *)
(** ** Layer panel: [updateLayersPanel] rows, [reorderLayers] *)

Module Layers.
Import Fabric.

(** The helper objects [this.safeRect], [this.bleedRect], [this.vGuide] and
    [this.hGuide], by identity. *)
Record Helpers : Type := mkHelpers {
  safeRect : nat;
  bleedRect : nat;
  vGuide : nat;
  hGuide : nat
}.

(** [a === b] on objects. *)
Definition same (a b : FabricObject) : bool := Nat.eqb (oid a) (oid b).

(** The filter shared by [updateLayersPanel] and [reorderLayers]. *)
Definition isDesignObject (hp : Helpers) (obj : FabricObject) : bool :=
  negb (Nat.eqb (oid obj) (safeRect hp))
  && negb (Nat.eqb (oid obj) (bleedRect hp))
  && negb (Nat.eqb (oid obj) (vGuide hp))
  && negb (Nat.eqb (oid obj) (hGuide hp))
  && negb (excludeFromLayers obj).

Definition designObjects (hp : Helpers) (canvasObjects : list FabricObject)
  : list FabricObject := filter (isDesignObject hp) canvasObjects.

(** The rows of the panel, in display order: [designObjects.reverse()].
    Row [index] carries that number in its drag data. *)
Definition layerRows (hp : Helpers) (canvasObjects : list FabricObject)
  : list FabricObject := rev (designObjects hp canvasObjects).

(** [canvas.remove(obj)]: the first entry that is [obj] is taken out. *)
Fixpoint remove (canvasObjects : list FabricObject) (obj : FabricObject)
  : list FabricObject :=
  match canvasObjects with
  | [] => []
  | o :: rest => if same o obj then rest else o :: remove rest obj
  end.

(** [arr.indexOf(obj)]; [None] is [undefined], which is never found. *)
Fixpoint indexOf (arr : list FabricObject) (obj : option FabricObject) : Z :=
  match arr, obj with
  | [], _ => (-1)%Z
  | _, None => (-1)%Z
  | o :: rest, Some t =>
      if same o t then 0%Z
      else let i := indexOf rest obj in
           if (i <? 0)%Z then (-1)%Z else (i + 1)%Z
  end.

(** [canvas.insertAt(obj, index)]: [this._objects.splice(index, 0, obj)]. *)
Definition insertAt (canvasObjects : list FabricObject) (obj : FabricObject)
    (index : Z) : list FabricObject :=
  JsArray.splice_insert canvasObjects index obj.

(** [reorderLayers(fromIndex, toIndex)] on the canvas's object array (paint
    order, first painted first).  The calls after the reinsertion
    ([renderAll], [saveHistory], [updateLayersPanel], [debouncedUpdate]) do
    not touch that array.  [None]: [objects[fromIndex]] is [undefined]. *)
Definition reorderLayers (hp : Helpers) (fromIndex toIndex : nat)
    (canvasObjects : list FabricObject) : option (list FabricObject) :=
  let objects := designObjects hp canvasObjects in
  match nth_error objects fromIndex with
  | None => None
  | Some draggedObject =>
      let c := remove canvasObjects draggedObject in
      if Nat.eqb toIndex 0 then
        Some (insertAt c draggedObject (Z.of_nat (length c) - 1))
      else
        let targetObject := nth_error objects toIndex in
        let targetCanvasIndex := indexOf c targetObject in
        Some (insertAt c draggedObject targetCanvasIndex)
  end.

(** The ["drop"] handler of the row [targetIndex] receiving the row
    [draggedIndex]. *)
Definition onDrop (hp : Helpers) (draggedIndex targetIndex : nat)
    (canvasObjects : list FabricObject) : option (list FabricObject) :=
  if Nat.eqb draggedIndex targetIndex then Some canvasObjects
  else reorderLayers hp draggedIndex targetIndex canvasObjects.

End Layers.

(* ================================================================= *)
(** ** Texture sync scheduling: [debounce], [debouncedUpdate] *)

Module Debounce.

Definition DEBOUNCE_TIME : Z := 300.

(** The closure made by [debounce(func, wait)]: its variable [timeout] (the
    pending timer, by its due time in ms; [None] once it ran or before the
    first call), and the times at which [func] has been applied. *)
Record Closure : Type := mk {
  timeout : option Z;
  runs : list Z
}.

Definition init : Closure := {| timeout := None; runs := [] |}.

(** The host runs the pending timer callback once it is due.  A callback due
    at the very instant of another event runs first or second as the host's
    event loop decides: [inclusive] tells which. *)
Definition fire (inclusive : bool) (now : Z) (c : Closure) : Closure :=
  match timeout c with
  | Some due =>
      if (if inclusive then (due <=? now)%Z else (due <? now)%Z)
      then {| timeout := None; runs := JsArray.push (runs c) due |}
      else c
  | None => c
  end.

(** The returned function, called at time [now]:
    [clearTimeout(timeout); timeout = setTimeout(..., wait)]. *)
Definition debounced (wait : Z) (now : Z) (c : Closure) : Closure :=
  {| timeout := Some (now + wait)%Z; runs := runs c |}.

(** [this.debouncedUpdate = this.debounce(() => this.updateMugTexture(),
    DEBOUNCE_TIME)], called at time [now]. *)
Definition debouncedUpdate (now : Z) (c : Closure) : Closure :=
  debounced DEBOUNCE_TIME now c.

(** Calls at the given times, in order; before each call the host has run
    what was due. *)
Fixpoint calls (tieFiresFirst : bool) (times : list Z) (c : Closure)
  : Closure :=
  match times with
  | [] => c
  | now :: rest =>
      calls tieFiresFirst rest (debouncedUpdate now (fire tieFiresFirst now c))
  end.

(** The executions of the texture update seen by time [T]. *)
Definition executionsBy (T : Z) (c : Closure) : list Z :=
  runs (fire true T c).

(** Each call comes after the previous one and strictly inside its window. *)
Fixpoint withinWindow (wait : Z) (prev : Z) (times : list Z) : Prop :=
  match times with
  | [] => True
  | t :: rest => (prev <= t < prev + wait)%Z /\ withinWindow wait t rest
  end.

End Debounce.

(* ================================================================= *)
(** ** The scene library's load, on scenes given by their objects *)

Module SceneLibrary.

Section Objects.
Context {A : Type}.

(** [canvas.clear()], which is [this.remove.apply(this, this.getObjects())]:
    the objects go one by one, the first painted first; the canvas after
    each removal. *)
Fixpoint clearStates (objects : list A) : list (list A) :=
  match objects with
  | [] => []
  | _ :: rest => rest :: clearStates rest
  end.

(** The insertions that end a load, [insertAt(obj, index)] for each object
    of the snapshot in order; the canvas after each insertion. *)
Definition insertStates (loaded : list A) : list (list A) :=
  map (fun k => firstn k loaded) (seq 1 (length loaded)).

(** The canvas at each handler call of [loadFromJSON], when the snapshot of
    a scene is the list of its objects. *)
Definition loadEvents (current loaded : list A) : list (list A) :=
  clearStates current ++ insertStates loaded.

End Objects.

End SceneLibrary.

(* ================================================================= *)
(** ** Concrete scenes used in the examples *)

Module Samples.

(** A scene reduced to the identities of its objects, in paint order; its
    snapshot is the same list. *)
Definition IdScene : Type := list nat.

Definition idToJSON (s : IdScene) : IdScene := s.

Definition idLoadFromJSON (current : IdScene) (state : IdScene) : IdScene :=
  state.

Definition idLoadEvents (current : IdScene) (state : IdScene)
  : list IdScene := SceneLibrary.loadEvents current state.

(** The mutation that adds the object [n] on top of the scene. *)
Definition addObject (n : nat) (s : IdScene) : IdScene := s ++ [n].

(** A designer holding one object, after the snapshot taken when it was
    added. *)
Definition oneObject : History.Designer IdScene IdScene :=
  History.saveHistory idToJSON (History.fresh [1%nat]).

(** A designer with 50 entries on the undo stack and one on the redo
    stack. *)
Definition fullWithRedo : History.Designer IdScene IdScene :=
  {| History.canvas := [7%nat];
     History.history := map (fun n => [n]) (seq 0 50);
     History.redoHistory := [[8%nat]] |}.

(** The safe and bleed rectangles of the default 614 x 230 canvas
    ([setupFabric]: margins 60/60/3/5, [BLEED_MARGIN] 10). *)
Definition safe : Rect.t :=
  {| Rect.left := 60; Rect.top := 3; Rect.width := 494; Rect.height := 222 |}.

Definition bleed : Rect.t :=
  {| Rect.left := -10; Rect.top := -10;
     Rect.width := 634; Rect.height := 250 |}.

(** The bounding rectangle of an unrotated object without stroke. *)
Definition axisAlignedBounds (obj : Fabric.FabricObject) : Rect.t :=
  let w := Fabric.width obj * Fabric.scaleX obj in
  let h := Fabric.height obj * Fabric.scaleY obj in
  {| Rect.left := Fabric.left obj - w / 2;
     Rect.top := Fabric.top obj - h / 2;
     Rect.width := w; Rect.height := h |}.

(** A text object 200 x 40 scaled by 3 on both axes, centered at
    ([cx], [cy]). *)
Definition bigText (cx cy : Q) : Fabric.FabricObject :=
  {| Fabric.oid := 10; Fabric.type := "i-text";
     Fabric.left := cx; Fabric.top := cy;
     Fabric.width := 200; Fabric.height := 40;
     Fabric.scaleX := 3; Fabric.scaleY := 3;
     Fabric.angle := 0; Fabric.excludeFromLayers := false |}.

(** An image 100 x 100 at scale 1, centered at ([cx], [cy]). *)
Definition image (id : nat) (cx cy : Q) : Fabric.FabricObject :=
  {| Fabric.oid := id; Fabric.type := "image";
     Fabric.left := cx; Fabric.top := cy;
     Fabric.width := 100; Fabric.height := 100;
     Fabric.scaleX := 1; Fabric.scaleY := 1;
     Fabric.angle := 0; Fabric.excludeFromLayers := false |}.

(** A helper object (safe or bleed rectangle, guide line). *)
Definition helper (id : nat) (ty : string) : Fabric.FabricObject :=
  {| Fabric.oid := id; Fabric.type := ty;
     Fabric.left := 0; Fabric.top := 0;
     Fabric.width := 0; Fabric.height := 0;
     Fabric.scaleX := 1; Fabric.scaleY := 1;
     Fabric.angle := 0; Fabric.excludeFromLayers := true |}.

Definition helpers : Layers.Helpers :=
  {| Layers.bleedRect := 0; Layers.safeRect := 1;
     Layers.vGuide := 2; Layers.hGuide := 3 |}.

(** The canvas after [setupFabric] and three added images: bleed and safe
    rectangles, the two guides, then the design objects 10, 11, 12 in the
    order they were added. *)
Definition threeLayers : list Fabric.FabricObject :=
  [ helper 0 "rect"; helper 1 "rect"; helper 2 "line"; helper 3 "line";
    image 10 100 100; image 11 200 100; image 12 300 100 ].

(** The same canvas with two added images only. *)
Definition twoLayers : list Fabric.FabricObject :=
  [ helper 0 "rect"; helper 1 "rect"; helper 2 "line"; helper 3 "line";
    image 10 100 100; image 11 200 100 ].

End Samples.

(* ================================================================= *)
(** ** Sessions of the history manager: [resetDesign], runs of operations *)

Module Session.
Import JsArray History.

Section Ops.

Variable Scene : Type.
Variable Snapshot : Type.
Variable toJSON : Scene -> Snapshot.
Variable loadFromJSON : Scene -> Snapshot -> Scene.
Variable loadEvents : Scene -> Snapshot -> list Scene.

(** What [resetDesign()] does to the fields of the history manager: the
    canvas is cleared and its helper objects are put back ([rebuild]), then
    [this.history = []] and [this.redoHistory = []]. *)
Definition resetDesign (rebuild : Scene -> Scene)
    (d : Designer Scene Snapshot) : Designer Scene Snapshot :=
  {| canvas := rebuild (canvas d); history := []; redoHistory := [] |}.

(** [loadVersion(versionId)] for a version that exists: its stored canvas is
    loaded. *)
Definition loadVersion (version : Snapshot) (d : Designer Scene Snapshot)
  : Designer Scene Snapshot :=
  loadIntoCanvas toJSON loadFromJSON loadEvents d version.

(** What the user can do to the history: a scene mutation (whose handler
    takes the snapshot), a click on undo, a click on redo, a reset, the
    loading of a saved version. *)
Inductive Op : Type :=
| Mutation (A : Scene -> Scene)
| Undo
| Redo
| Reset (rebuild : Scene -> Scene)
| LoadVersion (version : Snapshot).

Definition step (d : Designer Scene Snapshot) (op : Op)
  : Designer Scene Snapshot :=
  match op with
  | Mutation A => saveHistory toJSON (mutate A d)
  | Undo => undo toJSON loadFromJSON loadEvents d
  | Redo => redo toJSON loadFromJSON loadEvents d
  | Reset rebuild => resetDesign rebuild d
  | LoadVersion version => loadVersion version d
  end.

Definition run (ops : list Op) (d : Designer Scene Snapshot)
  : Designer Scene Snapshot := fold_left step ops d.

(** The click handler of a layer's delete button, and the
    [mouseUpHandler] of the delete control: [canvas.remove(obj)], on which
    the scene library runs the ["object:removed"] handler (which takes a
    snapshot), then [this.saveHistory()] once more. *)
Definition deleteObject (removal : Scene -> Scene)
    (d : Designer Scene Snapshot) : Designer Scene Snapshot :=
  saveHistory toJSON (onObjectRemoved toJSON (mutate removal d)).

End Ops.

Arguments Mutation {Scene Snapshot} A.
Arguments Undo {Scene Snapshot}.
Arguments Redo {Scene Snapshot}.
Arguments Reset {Scene Snapshot} rebuild.
Arguments LoadVersion {Scene Snapshot} version.
Arguments resetDesign {Scene Snapshot} rebuild d.
Arguments loadVersion {Scene Snapshot} toJSON loadFromJSON loadEvents version d.
Arguments step {Scene Snapshot} toJSON loadFromJSON loadEvents d op.
Arguments run {Scene Snapshot} toJSON loadFromJSON loadEvents ops d.
Arguments deleteObject {Scene Snapshot} toJSON removal d.

End Session.

(* ================================================================= *)
(** ** Canvas layout: [setupFabric], [updateCanvasSize] *)

Module Layout.

Definition BLEED_MARGIN : Q := 10.
Definition DEFAULT_CANVAS_WIDTH : Q := 614.
Definition DEFAULT_CANVAS_HEIGHT : Q := 230.
Definition ASPECT_RATIO : Q := DEFAULT_CANVAS_WIDTH / DEFAULT_CANVAS_HEIGHT.

(** The end points of a [fabric.Line]. *)
Record Line : Type := mkLine { x1 : Q; y1 : Q; x2 : Q; y2 : Q }.

(** The canvas dimensions, the [left]/[top]/[width]/[height] of
    [this.safeRect] and [this.bleedRect], and the two guide lines. *)
Record t : Type := mk {
  canvasWidth : Q;
  canvasHeight : Q;
  safeRect : Rect.t;
  bleedRect : Rect.t;
  vGuide : Line;
  hGuide : Line
}.

(** The layout [setupFabric()] creates ([mode] is ["Printful"]). *)
Definition setupFabric : t :=
  let marginTop := 3 in
  let marginBottom := 5 in
  let marginLeft := 60 in
  let marginRight := 60 in
  let printWidth := DEFAULT_CANVAS_WIDTH in
  let printHeight := DEFAULT_CANVAS_HEIGHT in
  {| canvasWidth := printWidth;
     canvasHeight := printHeight;
     safeRect :=
       {| Rect.left := marginLeft; Rect.top := marginTop;
          Rect.width := printWidth - (marginLeft + marginRight);
          Rect.height := printHeight - (marginTop + marginBottom) |};
     bleedRect :=
       {| Rect.left := - BLEED_MARGIN; Rect.top := - BLEED_MARGIN;
          Rect.width := printWidth + BLEED_MARGIN * 2;
          Rect.height := printHeight + BLEED_MARGIN * 2 |};
     vGuide := {| x1 := printWidth / 2; y1 := 0;
                  x2 := printWidth / 2; y2 := printHeight |};
     hGuide := {| x1 := 0; y1 := printHeight / 2;
                  x2 := printWidth; y2 := printHeight / 2 |} |}.

(** [updateCanvasSize(containerWidth, containerHeight)] *)
Definition updateCanvasSize (containerWidth containerHeight : Q) (l : t) : t :=
  let newWidth := Qmin (containerWidth - 32) DEFAULT_CANVAS_WIDTH in
  let newHeight := newWidth / ASPECT_RATIO in
  let '(newWidth, newHeight) :=
    if Fabric.Qltb (containerHeight - 32) newHeight
    then ((containerHeight - 32) * ASPECT_RATIO, containerHeight - 32)
    else (newWidth, newHeight) in
  let marginLeft := 60 in
  let marginRight := 60 in
  let marginTop := 3 in
  let marginBottom := 5 in
  {| canvasWidth := newWidth;
     canvasHeight := newHeight;
     safeRect :=
       {| Rect.left := marginLeft; Rect.top := marginTop;
          Rect.width := newWidth - (marginLeft + marginRight);
          Rect.height := newHeight - (marginTop + marginBottom) |};
     bleedRect :=
       {| Rect.left := - BLEED_MARGIN; Rect.top := - BLEED_MARGIN;
          Rect.width := newWidth + BLEED_MARGIN * 2;
          Rect.height := newHeight + BLEED_MARGIN * 2 |};
     vGuide := {| x1 := newWidth / 2; y1 := y1 (vGuide l);
                  x2 := newWidth / 2; y2 := newHeight |};
     hGuide := {| x1 := x1 (hGuide l); y1 := newHeight / 2;
                  x2 := newWidth; y2 := newHeight / 2 |} |}.

(** One rectangle, of non-negative extent, lies strictly inside another,
    edge by edge. *)
Definition strictlyInside (inner outer : Rect.t) : Prop :=
  0 <= Rect.width inner /\ 0 <= Rect.height inner /\
  Rect.left outer < Rect.left inner /\
  Rect.top outer < Rect.top inner /\
  Rect.left inner + Rect.width inner < Rect.left outer + Rect.width outer /\
  Rect.top inner + Rect.height inner < Rect.top outer + Rect.height outer.

(** The invariant of a layout: the bleed rectangle strictly contains the
    safe rectangle and extends [BLEED_MARGIN] beyond the canvas on every
    side, the safe rectangle keeps the fixed margins, and the guides run
    along the center lines [snapToCenter] snaps to. *)
Definition wellFormed (l : t) : Prop :=
  strictlyInside (safeRect l) (bleedRect l) /\
  Rect.left (bleedRect l) == - 10 /\ Rect.top (bleedRect l) == - 10 /\
  Rect.left (bleedRect l) + Rect.width (bleedRect l) == canvasWidth l + 10 /\
  Rect.top (bleedRect l) + Rect.height (bleedRect l) == canvasHeight l + 10 /\
  Rect.left (safeRect l) == 60 /\ Rect.top (safeRect l) == 3 /\
  Rect.left (safeRect l) + Rect.width (safeRect l) == canvasWidth l - 60 /\
  Rect.top (safeRect l) + Rect.height (safeRect l) == canvasHeight l - 5 /\
  x1 (vGuide l) == canvasWidth l / 2 /\ x2 (vGuide l) == canvasWidth l / 2 /\
  y1 (hGuide l) == canvasHeight l / 2 /\ y2 (hGuide l) == canvasHeight l / 2.

End Layout.

(* ================================================================= *)
(** ** Placing images: [handleImageUpload], [addAIGeneratedImage],
       [addPatternImage], [updatePatternProperties] *)

Module Placement.
Import Fabric.

(** [Math.min(0.3, (canvas.width - 40) / img.width,
              (canvas.height - 40) / img.height)] *)
Definition uploadScale (canvasWidth canvasHeight imgWidth imgHeight : Q) : Q :=
  Qmin (Qmin (3 # 10) ((canvasWidth - 40) / imgWidth))
       ((canvasHeight - 40) / imgHeight).

(** The value [obj.set({ scaleX: v })] stores (and likewise for [scaleY]):
    the scene library turns a zero scale into 0.0001 and stores a negative
    one as its absolute value, flipping the object, which the record does
    not show. *)
Definition storedScale (v : Q) : Q :=
  if Qeq_bool v 0 then 1 # 10000 else Qabs v.

(** The image as [img.set({...})] leaves it in the callback of
    [handleImageUpload] and of [addAIGeneratedImage]: centered on the
    canvas, origin at its center, one scale for both axes. *)
Definition placeImage (canvasWidth canvasHeight : Q) (img : FabricObject)
  : FabricObject :=
  let scale := uploadScale canvasWidth canvasHeight (width img) (height img) in
  set_scaleY (storedScale scale) (set_scaleX (storedScale scale)
    (set_top (canvasHeight / 2) (set_left (canvasWidth / 2) img))).

(** The scale [addPatternImage] gives the pattern:
    [Math.max(safeW / fImg.width, safeH / fImg.height)] with the safe area
    computed from the margins 60/60/3/5. *)
Definition patternScale (canvasWidth canvasHeight imgWidth imgHeight : Q) : Q :=
  let marginTop := 3 in
  let marginBottom := 5 in
  let marginLeft := 60 in
  let marginRight := 60 in
  let safeW := canvasWidth - (marginLeft + marginRight) in
  let safeH := canvasHeight - (marginTop + marginBottom) in
  Qmax (safeW / imgWidth) (safeH / imgHeight).

(** The scale [updatePatternProperties] gives every pattern image, [size]
    being the slider value divided by 100. *)
Definition patternSliderScale (canvasWidth canvasHeight imgWidth imgHeight
    size : Q) : Q :=
  let baseScale :=
    Qmax ((canvasWidth - 120) / imgWidth) ((canvasHeight - 20) / imgHeight) in
  baseScale * size.

End Placement.

(* ================================================================= *)
(** ** Texture rendering and export: [hideExportElements],
       [showExportElements], [updateMugTexture] *)

Module TextureExport.

(** What these functions read and write of a canvas object: its identity,
    [visible] and [excludeFromExport]. *)
Record Obj : Type := mk {
  ref : nat;
  visible : bool;
  excludeFromExport : bool
}.

(** [obj.set({ visible: v })] *)
Definition setVisible (v : bool) (o : Obj) : Obj :=
  {| ref := ref o; visible := v; excludeFromExport := excludeFromExport o |}.

(** [hideExportElements()] on the canvas objects. *)
Definition hideExportElements (objects : list Obj) : list Obj :=
  map (fun o => if excludeFromExport o then setVisible false o else o) objects.

(** [showExportElements()] on the canvas objects. *)
Definition showExportElements (objects : list Obj) : list Obj :=
  map (fun o => if excludeFromExport o then setVisible true o else o) objects.

(** One run of [updateMugTexture()]. *)
Record Render : Type := mkRender {
  rendered : option (list Obj * Q);
  after : list Obj
}.

(** [updateMugTexture()]: [outerMug] tells whether [this.meshes["Object_4"]]
    exists.  [rendered] is what [toDataURL] saw (the objects as they were at
    that moment, and the multiplier), [None] when the function returned at
    once; [after] is the canvas objects when it returns. *)
Definition updateMugTexture (outerMug : bool) (innerWidth : Q)
    (objects : list Obj) : Render :=
  if negb outerMug then {| rendered := None; after := objects |}
  else
    let hidden :=
      map (fun o => if excludeFromExport o then setVisible false o else o)
          objects in
    let multiplier := Qmin 4 (innerWidth / 500) in
    let shown :=
      map (fun o => if excludeFromExport o then setVisible true o else o)
          hidden in
    {| rendered := Some (hidden, multiplier); after := shown |}.

End TextureExport.

(* ================================================================= *)
(** ** Analytics and suggestions: [updateAnalytics],
       [extractFontsFromDesign], [getComplementaryFonts] *)

Module Analytics.

(** What these functions read of a canvas object. *)
Record Obj : Type := mk {
  type : string;
  fontFamily : string;
  fill : string;
  excludeFromLayers : bool;
  excludeFromExport : bool
}.

(** A JavaScript object used as a table of counters: its own keys in
    insertion order.  (Keys found on [Object.prototype], such as
    ["constructor"], are outside the model.) *)
Definition Counters : Type := list (string * nat).

(** [counters[key] || 0] *)
Fixpoint get (counters : Counters) (key : string) : nat :=
  match counters with
  | [] => 0
  | (k, n) :: rest => if String.eqb k key then n else get rest key
  end.

(** [counters[key] = v]: an existing key keeps its place, a new one goes to
    the end. *)
Fixpoint put (counters : Counters) (key : string) (v : nat) : Counters :=
  match counters with
  | [] => [(key, v)]
  | (k, n) :: rest =>
      if String.eqb k key then (k, v) :: rest else (k, n) :: put rest key v
  end.

(** [this.analytics] *)
Record t : Type := mkAnalytics {
  colors : Counters;
  fonts : Counters;
  elementsCount : nat
}.

Definition isText (o : Obj) : bool := String.eqb (type o) "i-text".

(** The body of the [forEach] of [updateAnalytics]. *)
Definition track (a : t) (o : Obj) : t :=
  if isText o then
    let font := fontFamily o in
    let fonts' := put (fonts a) font (get (fonts a) font + 1) in
    let color := fill o in
    let colors' := put (colors a) color (get (colors a) color + 1) in
    {| colors := colors'; fonts := fonts'; elementsCount := elementsCount a |}
  else a.

(** [updateAnalytics()] ([renderAnalytics] only reads). *)
Definition updateAnalytics (canvasObjects : list Obj) (a : t) : t :=
  let objects :=
    filter (fun o => negb (excludeFromLayers o) && negb (excludeFromExport o))
           canvasObjects in
  let a := {| colors := colors a; fonts := fonts a;
              elementsCount := length objects |} in
  fold_left track objects a.

(** [[...new Set(arr)]]: the first occurrence of each element, in order. *)
Definition dedupe (arr : list string) : list string :=
  fold_left (fun acc s => if existsb (String.eqb s) acc then acc
                          else acc ++ [s]) arr [].

(** A string is truthy unless it is empty. *)
Definition truthy (s : string) : bool :=
  match s with EmptyString => false | _ => true end.

(** [extractFontsFromDesign()] *)
Definition extractFontsFromDesign (canvasObjects : list Obj) : list string :=
  let fonts :=
    fold_left (fun fonts o =>
                 if isText o && truthy (fontFamily o)
                 then fonts ++ [fontFamily o] else fonts)
              canvasObjects [] in
  dedupe fonts.

Local Open Scope string_scope.

(** What [fontPairs[font]] finds: an own entry of the table, a member
    inherited from [Object.prototype] (a function, or the prototype itself
    for ["__proto__"]: truthy and not iterable), or [undefined]. *)
Inductive Lookup : Type :=
| Own (paired : list string)
| Inherited
| Absent.

(** The property names every object literal inherits. *)
Definition objectPrototypeKeys : list string :=
  [ "constructor"; "__defineGetter__"; "__defineSetter__"; "hasOwnProperty";
    "__lookupGetter__"; "__lookupSetter__"; "isPrototypeOf";
    "propertyIsEnumerable"; "toString"; "valueOf"; "__proto__";
    "toLocaleString" ].

(** The table [fontPairs] of [getComplementaryFonts], as a lookup. *)
Definition fontPairs (font : string) : Lookup :=
  if String.eqb font "Inter" then Own ["Georgia"; "Times New Roman"]
  else if String.eqb font "Arial" then Own ["Georgia"; "Verdana"]
  else if String.eqb font "Helvetica" then Own ["Times New Roman"; "Georgia"]
  else if String.eqb font "Times New Roman" then Own ["Arial"; "Helvetica"]
  else if String.eqb font "Georgia" then Own ["Arial"; "Inter"]
  else if String.eqb font "Verdana" then Own ["Times New Roman"; "Georgia"]
  else if existsb (String.eqb font) objectPrototypeKeys then Inherited
  else Absent.

Local Close Scope string_scope.

(** The [forEach] of [getComplementaryFonts]; [None] once
    [suggestions.push(...fontPairs[font])] has thrown a [TypeError] on a
    value that is not iterable. *)
Definition collectPairs (currentFonts : list string) : option (list string) :=
  fold_left (fun suggestions font =>
               match suggestions with
               | None => None
               | Some collected =>
                   match fontPairs font with
                   | Own paired => Some (collected ++ paired)
                   | Inherited => None
                   | Absent => Some collected
                   end
               end) currentFonts (Some []).

(** [getComplementaryFonts(currentFonts)]; [None] when it throws. *)
Definition getComplementaryFonts (currentFonts : list string)
  : option (list string) :=
  match collectPairs currentFonts with
  | Some suggestions => Some (dedupe suggestions)
  | None => None
  end.

(** The number of text objects among [objects] whose [key] is [k]. *)
Definition countText (key : Obj -> string) (k : string) (objects : list Obj)
  : nat :=
  length (filter (fun o => isText o && String.eqb (key o) k) objects).

End Analytics.

(* ================================================================= *)
(** ** Call patterns of the debounced update *)

Module CallPatterns.

(** Call times in non-decreasing order, none before [prev]. *)
Fixpoint ascending (prev : Z) (times : list Z) : Prop :=
  match times with
  | [] => True
  | t :: rest => (prev <= t)%Z /\ ascending t rest
  end.

(** Each call comes more than [wait] after the previous one. *)
Fixpoint spacedApart (wait : Z) (prev : Z) (times : list Z) : Prop :=
  match times with
  | [] => True
  | t :: rest => (prev + wait < t)%Z /\ spacedApart wait t rest
  end.

End CallPatterns.

(* ================================================================= *)
(** * Properties *)

Module JsArrayFacts.
Import JsArray.
Local Open Scope nat_scope.

Lemma pop_push {A} (arr : list A) (x : A) : pop (push arr x) = (Some x, arr).
Proof.
  unfold pop, push. rewrite rev_app_distr. simpl. now rewrite rev_involutive.
Qed.

Lemma top_push {A} (arr : list A) (x : A) : top (push arr x) = Some x.
Proof. unfold top. now rewrite pop_push. Qed.

Lemma length_push {A} (arr : list A) (x : A) :
  length (push arr x) = S (length arr).
Proof. unfold push. rewrite length_app. simpl. lia. Qed.

Lemma length_shift {A} (arr : list A) : length (shift arr) = pred (length arr).
Proof. now destruct arr. Qed.

Lemma shift_push {A} (arr : list A) (x : A) :
  arr <> [] -> shift (push arr x) = push (shift arr) x.
Proof. destruct arr; [congruence | reflexivity]. Qed.

Lemma pop_nonempty {A} (arr : list A) :
  arr <> [] -> exists x r, pop arr = (Some x, r) /\ arr = push r x.
Proof.
  intros H. destruct (exists_last H) as [r [x ->]].
  exists x, r. split; [apply pop_push | reflexivity].
Qed.

Lemma length_pos_nonempty {A} (arr : list A) : 0 < length arr -> arr <> [].
Proof. destruct arr; simpl; [lia | congruence]. Qed.

End JsArrayFacts.

Module HistoryFacts.
Import JsArray JsArrayFacts History.
Local Open Scope nat_scope.

Section Facts.

Variable Scene : Type.
Variable Snapshot : Type.
Variable toJSON : Scene -> Snapshot.
Variable loadFromJSON : Scene -> Snapshot -> Scene.

Local Abbreviation Designer := (Designer Scene Snapshot).
Local Abbreviation save := (saveHistory toJSON).

(** What [saveHistory] leaves on the undo stack: the new snapshot on top of
    the previous entries, minus the oldest one when there were already 50
    or more. *)
Lemma saveHistory_history (d : Designer) :
  history (save d) =
  push (if 50 <=? length (history d) then shift (history d) else history d)
       (toJSON (canvas d)).
Proof.
  unfold saveHistory, HISTORY_CAP. cbn [history].
  rewrite length_push.
  destruct (Nat.ltb_spec 50 (S (length (history d))));
    destruct (Nat.leb_spec 50 (length (history d))); try lia; try reflexivity.
  apply shift_push. apply length_pos_nonempty. lia.
Qed.

Lemma saveHistory_top (d : Designer) :
  top (history (save d)) = Some (toJSON (canvas d)).
Proof. rewrite saveHistory_history. apply top_push. Qed.

Lemma saveHistory_length (d : Designer) :
  length (history (save d)) =
  if 50 <=? length (history d) then length (history d)
  else S (length (history d)).
Proof.
  rewrite saveHistory_history, length_push.
  destruct (Nat.leb_spec 50 (length (history d))); [| reflexivity].
  rewrite length_shift. lia.
Qed.

Lemma saveHistory_keeps_cap (d : Designer) :
  length (history d) <= 50 -> length (history (save d)) <= 50.
Proof.
  intros H. rewrite saveHistory_length.
  destruct (Nat.leb_spec 50 (length (history d))); lia.
Qed.

Lemma snapshots_snoc (scenes : list Scene) (s : Scene) (d : Designer) :
  snapshots toJSON (scenes ++ [s]) d =
  save (mutate (fun _ => s) (snapshots toJSON scenes d)).
Proof. unfold snapshots. now rewrite fold_left_app. Qed.

Lemma tl_skipn {A} (k : nat) (l : list A) : tl (skipn k l) = skipn (S k) l.
Proof.
  revert l. induction k as [| k IH]; intros [| a l]; try reflexivity.
  cbn [skipn]. apply IH.
Qed.

(** After any run of snapshots from empty stacks the undo stack holds the
    snapshots of the last 50 scenes, oldest first. *)
Lemma snapshots_history (scenes : list Scene) (s0 : Scene) :
  history (snapshots toJSON scenes (fresh s0)) =
  map toJSON (skipn (length scenes - 50) scenes).
Proof.
  induction scenes as [| s scenes IH] using rev_ind; [reflexivity |].
  rewrite snapshots_snoc, saveHistory_history. cbn [mutate canvas history].
  rewrite IH, length_map, length_skipn, length_app. cbn [length].
  unfold push, shift.
  destruct (Nat.leb_spec 50 (length scenes - (length scenes - 50))).
  - assert (Hn : 50 <= length scenes) by lia.
    replace (length scenes + 1 - 50) with (S (length scenes - 50)) by lia.
    rewrite skipn_app.
    replace (S (length scenes - 50) - length scenes) with 0 by lia.
    rewrite <- tl_skipn. change (skipn 0 [s]) with [s].
    rewrite map_app. cbn [map].
    now destruct (skipn (length scenes - 50) scenes).
  - replace (length scenes + 1 - 50) with 0 by lia.
    replace (length scenes - 50) with 0 by lia.
    cbn [skipn]. now rewrite map_app.
Qed.

Lemma snapshots_redo (scenes : list Scene) (s0 : Scene) :
  redoHistory (snapshots toJSON scenes (fresh s0)) = [].
Proof.
  induction scenes as [| s scenes IH] using rev_ind; [reflexivity |].
  now rewrite snapshots_snoc.
Qed.

(** Two snapshots in a row leave both on top of the undo stack. *)
Lemma two_snapshots (A : Scene -> Scene) (d : Designer) :
  exists h,
    save (mutate A (save d)) =
    {| canvas := A (canvas d);
       history := push (push h (toJSON (canvas d))) (toJSON (A (canvas d)));
       redoHistory := [] |}.
Proof.
  pose proof (saveHistory_history d) as H1.
  pose proof (saveHistory_history (mutate A (save d))) as H2.
  cbn [mutate history canvas] in H2.
  set (k := if 50 <=? length (history d) then shift (history d)
            else history d) in *.
  rewrite H1 in H2.
  assert (Hk : exists h,
    (if 50 <=? length (push k (toJSON (canvas d)))
     then shift (push k (toJSON (canvas d)))
     else push k (toJSON (canvas d))) = push h (toJSON (canvas d))).
  { rewrite length_push.
    destruct (Nat.leb_spec 50 (S (length k))).
    - exists (shift k). apply shift_push. apply length_pos_nonempty. lia.
    - now exists k. }
  destruct Hk as [h Hh]. exists h.
  rewrite Hh in H2. clear - H2.
  unfold saveHistory in *. cbn [mutate canvas history redoHistory] in *.
  now rewrite H2.
Qed.

(** C5. [saveHistory] pushes the snapshot of the current scene on the undo
    stack, evicts the oldest entry when that makes more than 50, and empties
    the redo stack; 51 snapshots from empty stacks leave exactly the 50
    newest. *)
Theorem saveHistory_push_cap_clear :
  (forall d : Designer,
     redoHistory (save d) = [] /\
     canvas (save d) = canvas d /\
     top (history (save d)) = Some (toJSON (canvas d)) /\
     (length (history d) < 50 ->
        history (save d) = push (history d) (toJSON (canvas d))) /\
     (length (history d) = 50 ->
        history (save d) = push (shift (history d)) (toJSON (canvas d)) /\
        length (history (save d)) = 50)) /\
  (forall (s0 oldest : Scene) (rest : list Scene),
     length rest = 50 ->
     let d := snapshots toJSON (oldest :: rest) (fresh s0) in
     history d = map toJSON rest /\
     length (history d) = 50 /\
     redoHistory d = []).
Proof.
  split.
  - intros d. repeat split.
    + apply saveHistory_top.
    + intros H. rewrite saveHistory_history.
      destruct (Nat.leb_spec 50 (length (history d))); [lia | reflexivity].
    + rewrite saveHistory_history.
      destruct (Nat.leb_spec 50 (length (history d))); [reflexivity | lia].
    + rewrite saveHistory_length.
      destruct (Nat.leb_spec 50 (length (history d))); lia.
  - intros s0 oldest rest Hlen d. subst d.
    rewrite snapshots_history, snapshots_redo. cbn [length].
    rewrite Hlen. cbn [Nat.sub skipn].
    rewrite length_map. auto.
Qed.


End Facts.

(** 51 snapshots of the scenes [[0]], ..., [[50]]: the first is evicted. *)
Lemma saveHistory_push_cap_clear_witness :
  let d := snapshots Samples.idToJSON (map (fun n => [n]) (seq 0 51))
             (fresh []) in
  history d = map (fun n => [n]) (seq 1 50) /\
  length (history d) = 50 /\ redoHistory d = [].
Proof.
  exact (proj2 (saveHistory_push_cap_clear _ _ Samples.idToJSON)
           [] [0] (map (fun n => [n]) (seq 1 50)) eq_refl).
Defined.


End HistoryFacts.

Module ConstraintFacts.
Import Fabric Constraint.

Lemma Qltb_spec (a b : Q) : BoolSpec (a < b) (b <= a) (Qltb a b).
Proof.
  unfold Qltb. destruct (Qle_bool b a) eqn:E; constructor.
  - now apply Qle_bool_iff.
  - apply Qnot_le_lt. intros H. apply Qle_bool_iff in H. congruence.
Qed.

Ltac obj_simpl :=
  cbn [oid type left top width height scaleX scaleY angle excludeFromLayers
       set_left set_top set_scaleX set_scaleY setPositionByOrigin
       getCenterPoint x y fst snd] in *.

Ltac case_lt :=
  match goal with
  | |- context [Qltb ?a ?b] => destruct (Qltb_spec a b); obj_simpl
  end.

Ltac qhalf := unfold Qdiv in *; change (/ 2) with (1 # 2) in *.

Section BoundsFacts.

Variable getBoundingRect : FabricObject -> Rect.t.
Variable safe : Rect.t.
Variable bleed : Rect.t.

(** The scaled extents after the fit. *)
Lemma clampText_frame (obj : FabricObject) :
  let obj' := clampText safe obj in
  oid obj' = oid obj /\ type obj' = type obj /\
  width obj' = width obj /\ height obj' = height obj /\
  angle obj' = angle obj /\ excludeFromLayers obj' = excludeFromLayers obj.
Proof.
  unfold clampText. cbn zeta.
  repeat case_lt; repeat split.
Qed.

(** The scale factors after the fit, each axis by itself. *)
Lemma clampText_scale (obj : FabricObject) :
  let obj' := clampText safe obj in
  scaleX obj' =
    (if Qltb (Rect.width safe) (width obj * scaleX obj)
     then Rect.width safe / width obj else scaleX obj) /\
  scaleY obj' =
    (if Qltb (Rect.height safe) (height obj * scaleY obj)
     then Rect.height safe / height obj else scaleY obj).
Proof.
  unfold clampText. cbn zeta.
  repeat case_lt; repeat split.
Qed.

(** The position clamp, with the half extents the fit has left. *)
Lemma clampText_position (obj : FabricObject) :
  let obj' := clampText safe obj in
  let objWidth :=
    if Qltb (Rect.width safe) (width obj * scaleX obj)
    then Rect.width safe else width obj * scaleX obj in
  let objHeight :=
    if Qltb (Rect.height safe) (height obj * scaleY obj)
    then Rect.height safe else height obj * scaleY obj in
  (Rect.left safe + objWidth / 2 <= left obj'
     <= Rect.left safe + Rect.width safe - objWidth / 2) /\
  (Rect.top safe + objHeight / 2 <= top obj'
     <= Rect.top safe + Rect.height safe - objHeight / 2).
Proof.
  unfold clampText. cbn zeta.
  repeat case_lt; qhalf; repeat split; lra.
Qed.

Lemma checkBounds_text (now : Z) (m : Modal.t) (obj : FabricObject) :
  isText obj = true ->
  fst (checkBounds getBoundingRect safe bleed now (Some obj) m)
  = Some (clampText safe obj).
Proof.
  intros H. unfold checkBounds, checkBoundsObj. now rewrite H.
Qed.

(** C1. For a text object (positive intrinsic size, non-negative scale, as
    the scene library makes them) and a safe-zone rectangle of non-negative
    extent, the center of the object's bounding box after [checkBounds] lies
    in the safe zone, edges included, and neither scale factor has grown. *)
Theorem checkBounds_text_center_in_safe_zone
    (now : Z) (m : Modal.t) (obj : FabricObject)
    (Htext : isText obj = true)
    (Hw : 0 < width obj) (Hh : 0 < height obj)
    (Hsx : 0 <= scaleX obj) (Hsy : 0 <= scaleY obj)
    (HsafeW : 0 <= Rect.width safe) (HsafeH : 0 <= Rect.height safe)
    (Hcentered : forall o, boundsCentered getBoundingRect o) :
  exists obj',
    fst (checkBounds getBoundingRect safe bleed now (Some obj) m) = Some obj' /\
    Rect.contains safe (Rect.centerX (getBoundingRect obj'))
                       (Rect.centerY (getBoundingRect obj')) /\
    scaleX obj' <= scaleX obj /\ scaleY obj' <= scaleY obj.
Proof.
  exists (clampText safe obj). split; [now apply checkBounds_text |].
  destruct (Hcentered (clampText safe obj)) as [Hcx Hcy].
  unfold Rect.contains. rewrite Hcx, Hcy.
  pose proof (clampText_position obj) as P.
  pose proof (clampText_scale obj) as [Sx Sy].
  cbn zeta in P. rewrite Sx, Sy.
  pose proof (Qmult_le_0_compat _ _ (Qlt_le_weak _ _ Hw) Hsx) as Pw.
  pose proof (Qmult_le_0_compat _ _ (Qlt_le_weak _ _ Hh) Hsy) as Ph.
  destruct (Qltb_spec (Rect.width safe) (width obj * scaleX obj));
    destruct (Qltb_spec (Rect.height safe) (height obj * scaleY obj));
    (split; [qhalf; lra |]);
    (split; [try apply Qle_refl | try apply Qle_refl]);
    apply Qle_shift_div_r; lra.
Qed.

(** C2 (amended). For a text object the fit is made axis by axis: [scaleX]
    becomes safe width / width exactly when the scaled width exceeds the
    safe zone's width, [scaleY] becomes safe height / height exactly when
    the scaled height exceeds its height, and the other factor is left as
    it was.  The position clamp comes after: the center ends up within
    [safeLeft + halfW, safeLeft + safeW - halfW] and the same range for Y,
    where the half extents are those of the rescaled object. *)
Theorem checkBounds_text_fit_then_clamp
    (now : Z) (m : Modal.t) (obj : FabricObject)
    (Htext : isText obj = true)
    (Hw : 0 < width obj) (Hh : 0 < height obj) :
  exists obj',
    fst (checkBounds getBoundingRect safe bleed now (Some obj) m) = Some obj' /\
    width obj' = width obj /\ height obj' = height obj /\
    (Rect.width safe < width obj * scaleX obj ->
       scaleX obj' = Rect.width safe / width obj) /\
    (width obj * scaleX obj <= Rect.width safe -> scaleX obj' = scaleX obj) /\
    (Rect.height safe < height obj * scaleY obj ->
       scaleY obj' = Rect.height safe / height obj) /\
    (height obj * scaleY obj <= Rect.height safe -> scaleY obj' = scaleY obj) /\
    width obj' * scaleX obj' <= Rect.width safe /\
    height obj' * scaleY obj' <= Rect.height safe /\
    (Rect.left safe + width obj' * scaleX obj' / 2 <= left obj'
       <= Rect.left safe + Rect.width safe - width obj' * scaleX obj' / 2) /\
    (Rect.top safe + height obj' * scaleY obj' / 2 <= top obj'
       <= Rect.top safe + Rect.height safe - height obj' * scaleY obj' / 2).
Proof.
  exists (clampText safe obj). split; [now apply checkBounds_text |].
  pose proof (clampText_frame obj) as (_ & _ & Fw & Fh & _).
  pose proof (clampText_position obj) as P.
  pose proof (clampText_scale obj) as [Sx Sy].
  cbn zeta in P. rewrite Fw, Fh, Sx, Sy.
  assert (Ew : width obj * (Rect.width safe / width obj) == Rect.width safe)
    by (apply Qmult_div_r; lra).
  assert (Eh : height obj * (Rect.height safe / height obj) == Rect.height safe)
    by (apply Qmult_div_r; lra).
  destruct (Qltb_spec (Rect.width safe) (width obj * scaleX obj));
    destruct (Qltb_spec (Rect.height safe) (height obj * scaleY obj));
    repeat split; try reflexivity; try (intros; exfalso; lra);
    try rewrite Ew; try rewrite Eh; try apply Qle_refl; try assumption;
    apply P.
Qed.

(** What "outside the bleed zone" tests: some edge of the bounding box lies
    beyond the matching edge of the bleed rectangle. *)
Lemma outsideBleed_iff (bounds : Rect.t) :
  outsideBleed bleed bounds = true <->
  (Rect.left bounds < Rect.left bleed \/
   Rect.left bleed + Rect.width bleed < Rect.left bounds + Rect.width bounds \/
   Rect.top bounds < Rect.top bleed \/
   Rect.top bleed + Rect.height bleed < Rect.top bounds + Rect.height bounds).
Proof.
  unfold outsideBleed.
  repeat match goal with
  | |- context [Qltb ?a ?b] => destruct (Qltb_spec a b)
  end; cbn [orb]; split; auto; intros K; try discriminate;
  repeat (destruct K as [K | K]); exfalso; lra.
Qed.

(** C8. On an object that is not text [checkBounds] returns the object as it
    was (position, scale and rotation included) and always returns.  When an
    edge of the bounding box exceeds the bleed rectangle the warning modal is
    shown with a timer due 3000 ms later, whose callback hides it again (and
    nothing hides it earlier when no older timer is pending); otherwise the
    modal is untouched. *)
Theorem checkBounds_non_text_warns_only
    (now : Z) (m : Modal.t) (obj : FabricObject)
    (Hother : isText obj = false) :
  let r := checkBounds getBoundingRect safe bleed now (Some obj) m in
  fst r = Some obj /\
  (outsideBleed bleed (getBoundingRect obj) = true ->
     snd r = Modal.showModal now WARNING m /\
     Modal.display (snd r) = true /\
     Modal.message (snd r) = WARNING /\
     In (now + 3000)%Z (Modal.hideTimers (snd r)) /\
     Modal.display (Modal.runTimers (now + 3000) (snd r)) = false /\
     (Modal.hideTimers m = [] ->
      forall t, (t < now + 3000)%Z ->
        Modal.display (Modal.runTimers t (snd r)) = true)) /\
  (outsideBleed bleed (getBoundingRect obj) = false -> snd r = m).
Proof.
  unfold checkBounds, checkBoundsObj. rewrite Hother.
  destruct (outsideBleed bleed (getBoundingRect obj)); cbn [fst snd];
    (split; [reflexivity |]); (split; [| intros; congruence]);
    [intros _ | discriminate].
  repeat split.
  - cbn [Modal.showModal Modal.hideTimers]. apply in_or_app. right. now left.
  - unfold Modal.runTimers, Modal.showModal. cbn [Modal.hideTimers].
    rewrite existsb_app. cbn [existsb]. rewrite Z.leb_refl.
    now rewrite orb_true_r.
  - intros Hm t Ht. unfold Modal.runTimers, Modal.showModal.
    cbn [Modal.hideTimers]. rewrite Hm. cbn [app existsb].
    destruct (Z.leb_spec (now + 3000) t); [lia | reflexivity].
Qed.

End BoundsFacts.

Section SnapFacts.

Variable canvasWidth : Q.
Variable canvasHeight : Q.

(** C3 (amended). Axis by axis, with the default threshold: when the center
    is strictly less than 10 px from the center line, that axis's guide is
    made visible, and the coordinate is set exactly to the center line (for
    the Y axis always, for the X axis when the Y axis does not snap as
    well); when it is 10 px or more away, the coordinate is unchanged and the
    guide is hidden. *)
Theorem snapToCenter_per_axis (obj : FabricObject) :
  let c := getCenterPoint obj in
  let r := snapToCenter canvasWidth canvasHeight obj DEFAULT_SNAP_PX in
  let c' := getCenterPoint (fst (fst r)) in
  let g := snd (fst r) in
  (Qabs (x c - canvasWidth / 2) < 10 ->
     vGuide g = true /\
     (10 <= Qabs (y c - canvasHeight / 2) -> x c' = canvasWidth / 2)) /\
  (10 <= Qabs (x c - canvasWidth / 2) -> vGuide g = false /\ x c' = x c) /\
  (Qabs (y c - canvasHeight / 2) < 10 ->
     hGuide g = true /\ y c' = canvasHeight / 2) /\
  (10 <= Qabs (y c - canvasHeight / 2) -> hGuide g = false /\ y c' = y c).
Proof.
  unfold snapToCenter, DEFAULT_SNAP_PX. cbn zeta.
  destruct (Qltb_spec (Qabs (x (getCenterPoint obj) - canvasWidth / 2)) 10);
    destruct (Qltb_spec (Qabs (y (getCenterPoint obj) - canvasHeight / 2)) 10);
    obj_simpl; cbn [vGuide hGuide];
    repeat split; try reflexivity; intros; exfalso; lra.
Qed.

(** When both axes are within the threshold the second repositioning is
    made from the center read before the first: the X coordinate is back
    where it was, with both guides shown. *)
Lemma snapToCenter_both_axes (obj : FabricObject) :
  let c := getCenterPoint obj in
  let r := snapToCenter canvasWidth canvasHeight obj DEFAULT_SNAP_PX in
  Qabs (x c - canvasWidth / 2) < 10 ->
  Qabs (y c - canvasHeight / 2) < 10 ->
  getCenterPoint (fst (fst r)) = {| x := x c; y := canvasHeight / 2 |} /\
  snd (fst r) = {| vGuide := true; hGuide := true |}.
Proof.
  unfold snapToCenter, DEFAULT_SNAP_PX. cbn zeta. intros Hx Hy.
  destruct (Qltb_spec (Qabs (x (getCenterPoint obj) - canvasWidth / 2)) 10);
    [| exfalso; lra].
  destruct (Qltb_spec (Qabs (y (getCenterPoint obj) - canvasHeight / 2)) 10);
    [| exfalso; lra].
  split; reflexivity.
Qed.

End SnapFacts.

Ltac qcompute := vm_compute; first [reflexivity | discriminate].

Lemma axisAlignedBounds_centered (o : FabricObject) :
  boundsCentered Samples.axisAlignedBounds o.
Proof.
  unfold boundsCentered, Samples.axisAlignedBounds, Rect.centerX, Rect.centerY.
  cbn [Rect.left Rect.top Rect.width Rect.height]. qhalf. split; lra.
Qed.

(** An oversized text dropped at the canvas origin ends up inside the safe
    zone of the default canvas, scaled down. *)
Lemma checkBounds_text_center_in_safe_zone_witness :
  exists obj',
    fst (checkBounds Samples.axisAlignedBounds Samples.safe Samples.bleed 0
           (Some (Samples.bigText 0 0)) Modal.hidden) = Some obj' /\
    Rect.contains Samples.safe
      (Rect.centerX (Samples.axisAlignedBounds obj'))
      (Rect.centerY (Samples.axisAlignedBounds obj')) /\
    scaleX obj' <= scaleX (Samples.bigText 0 0) /\
    scaleY obj' <= scaleY (Samples.bigText 0 0).
Proof.
  apply (checkBounds_text_center_in_safe_zone
           Samples.axisAlignedBounds Samples.safe Samples.bleed 0 Modal.hidden
           (Samples.bigText 0 0));
    [reflexivity | qcompute | qcompute | qcompute | qcompute | qcompute
    | qcompute | exact axisAlignedBounds_centered].
Defined.

(** The same text at the canvas center: only its width is refitted. *)
Lemma checkBounds_text_fit_then_clamp_witness :
  exists obj',
    fst (checkBounds Samples.axisAlignedBounds Samples.safe Samples.bleed 0
           (Some (Samples.bigText 307 115)) Modal.hidden) = Some obj' /\
    scaleX obj' = 494 / 200 /\ scaleY obj' = 3.
Proof.
  destruct (checkBounds_text_fit_then_clamp
              Samples.axisAlignedBounds Samples.safe Samples.bleed 0
              Modal.hidden (Samples.bigText 307 115))
    as (obj' & E & _ & _ & Sx & _ & _ & Sy & _);
    [reflexivity | qcompute | qcompute |].
  exists obj'. split; [exact E |]. split; [apply Sx | apply Sy]; qcompute.
Defined.

(** C2 as stated fails: a 200 x 40 text scaled by 3 on both axes has a
    bounding box wider (600) than the safe zone (494) but not higher (120
    against 222); [checkBounds] brings [scaleX] down to 494/200 and leaves
    [scaleY] at 3, so the ratio of the two factors is not kept. *)
Lemma checkBounds_aspect_ratio_counterexample :
  let obj := Samples.bigText 307 115 in
  let r := checkBounds Samples.axisAlignedBounds Samples.safe Samples.bleed 0
             (Some obj) Modal.hidden in
  Rect.width Samples.safe < Rect.width (Samples.axisAlignedBounds obj) /\
  exists obj',
    fst r = Some obj' /\
    scaleX obj' == 247 # 100 /\ scaleY obj' == 3 /\
    ~ scaleX obj' / scaleY obj' == scaleX obj / scaleY obj.
Proof.
  split; [qcompute |].
  eexists. split; [reflexivity |]. repeat split; qcompute.
Qed.

(** An image hanging over the right edge of the bleed rectangle: it is
    returned as it was and the warning is shown. *)
Lemma checkBounds_non_text_warns_only_witness :
  let r := checkBounds Samples.axisAlignedBounds Samples.safe Samples.bleed 0
             (Some (Samples.image 10 650 100)) Modal.hidden in
  fst r = Some (Samples.image 10 650 100) /\
  Modal.display (snd r) = true /\
  Modal.display (Modal.runTimers 3000 (snd r)) = false.
Proof.
  destruct (checkBounds_non_text_warns_only
              Samples.axisAlignedBounds Samples.safe Samples.bleed 0
              Modal.hidden (Samples.image 10 650 100) eq_refl)
    as (E & W & _).
  destruct (W eq_refl) as (_ & D & _ & _ & Hd & _).
  exact (conj E (conj D Hd)).
Defined.

(** An image 3 px right of the vertical center line of the default canvas
    and far from the horizontal one is snapped in X only. *)
Lemma snapToCenter_per_axis_witness :
  let r := snapToCenter 614 230 (Samples.image 10 310 50) DEFAULT_SNAP_PX in
  x (getCenterPoint (fst (fst r))) = 614 / 2 /\
  y (getCenterPoint (fst (fst r))) = 50 /\
  snd (fst r) = {| vGuide := true; hGuide := false |}.
Proof.
  destruct (snapToCenter_per_axis 614 230 (Samples.image 10 310 50))
    as (X & _ & _ & Y).
  destruct X as [V Hx]; [qcompute |].
  destruct Y as [Hg Hy]; [qcompute |].
  split; [apply Hx; qcompute |]. split; [exact Hy |].
  cbv zeta in V, Hg.
  destruct (snd (fst (snapToCenter 614 230 (Samples.image 10 310 50)
                        DEFAULT_SNAP_PX))) as [v h].
  cbn [vGuide hGuide] in V, Hg. now rewrite V, Hg.
Defined.

(** C3 as stated fails.  On the default canvas (center lines x = 307 and
    y = 115): an object whose center is at x = 317, exactly 10 px from the
    vertical center line, is not moved and the vertical guide is hidden; and
    an object whose center (310, 118) is 3 px from both center lines ends
    with its center at x = 310, not on the vertical center line. *)
Lemma snapToCenter_counterexample :
  (let obj := Samples.image 10 317 50 in
   let r := snapToCenter 614 230 obj DEFAULT_SNAP_PX in
   Qabs (x (getCenterPoint obj) - 614 / 2) <= 10 /\
   x (getCenterPoint (fst (fst r))) = 317 /\
   ~ x (getCenterPoint (fst (fst r))) == 614 / 2 /\
   vGuide (snd (fst r)) = false) /\
  (let obj := Samples.image 10 310 118 in
   let r := snapToCenter 614 230 obj DEFAULT_SNAP_PX in
   Qabs (x (getCenterPoint obj) - 614 / 2) <= 10 /\
   Qabs (y (getCenterPoint obj) - 230 / 2) <= 10 /\
   x (getCenterPoint (fst (fst r))) = 310 /\
   ~ x (getCenterPoint (fst (fst r))) == 614 / 2).
Proof. repeat split; qcompute. Qed.

(** The stale center at work: 3 px from both center lines of the default
    canvas, the object ends at x = 310, not at 307, with both guides
    shown. *)
Lemma snapToCenter_both_axes_example :
  let r := snapToCenter 614 230 (Samples.image 10 310 118) DEFAULT_SNAP_PX in
  getCenterPoint (fst (fst r)) = {| x := 310; y := 230 / 2 |} /\
  snd (fst r) = {| vGuide := true; hGuide := true |}.
Proof.
  apply (snapToCenter_both_axes 614 230 (Samples.image 10 310 118));
    qcompute.
Qed.

End ConstraintFacts.

Module LayersFacts.
Import Fabric Layers.
Local Open Scope nat_scope.

(** C7 (failing input). Three design objects 10, 11, 12 painted in that
    order are listed as rows 12, 11, 10.  Dropping the bottom row (index 2,
    object 10) on the top row (index 0) takes object 12 out of the canvas
    and puts it back below object 11: object 10 is still painted first and
    the order of the two others is swapped. *)
Theorem reorderLayers_bottom_to_top_evaluated :
  map oid (layerRows Samples.helpers Samples.threeLayers) = [12; 11; 10] /\
  option_map (map oid) (onDrop Samples.helpers 2 0 Samples.threeLayers)
  = Some [0; 1; 2; 3; 10; 12; 11] /\
  option_map (map oid) (onDrop Samples.helpers 2 0 Samples.threeLayers)
  <> Some [0; 1; 2; 3; 11; 12; 10].
Proof. repeat split. discriminate. Qed.

(** With two design objects only, the two index mix-ups cancel out: object
    11 is taken instead of object 10 and put back below it, which leaves
    object 10 on top. *)
Lemma reorderLayers_two_layers_example :
  map oid (layerRows Samples.helpers Samples.twoLayers) = [11; 10] /\
  option_map (map oid) (onDrop Samples.helpers 1 0 Samples.twoLayers)
  = Some [0; 1; 2; 3; 11; 10].
Proof. split; reflexivity. Qed.

End LayersFacts.

Module DebounceFacts.
Import Debounce.
Local Open Scope Z_scope.

Lemma last_cons (l : list Z) (a d : Z) : last (a :: l) d = last l a.
Proof.
  revert a d. induction l as [| b l IH]; intros a d; [reflexivity |].
  change (last (a :: b :: l) d) with (last (b :: l) d).
  now rewrite !IH.
Qed.

(** A call strictly inside the window of the pending timer finds it still
    pending, whatever the host does at ties, and replaces it. *)
Lemma calls_pending (tie : bool) (rest : list Z) (t : Z) (done : list Z) :
  withinWindow DEBOUNCE_TIME t rest ->
  calls tie rest {| timeout := Some (t + DEBOUNCE_TIME); runs := done |}
  = {| timeout := Some (last rest t + DEBOUNCE_TIME); runs := done |}.
Proof.
  revert t. induction rest as [| t' rest IH]; intros t H; [reflexivity |].
  destruct H as [Ht H]. cbn [calls].
  assert (F : fire tie t' {| timeout := Some (t + DEBOUNCE_TIME); runs := done |}
              = {| timeout := Some (t + DEBOUNCE_TIME); runs := done |}).
  { unfold fire. cbn [timeout].
    destruct tie;
      [destruct (Z.leb_spec (t + DEBOUNCE_TIME) t')
      | destruct (Z.ltb_spec (t + DEBOUNCE_TIME) t')];
      first [lia | reflexivity]. }
  rewrite F. unfold debouncedUpdate, debounced. cbn [runs].
  now rewrite (IH t' H), last_cons.
Qed.

(** C9. A burst of one or more calls of [debouncedUpdate], each strictly
    within 300 ms of the previous one, leads to exactly one execution of the
    texture update, 300 ms after the last call: seen at any time before
    that there is no execution, seen at any time from then on there is that
    one.  This holds however the host orders a timer and a call falling on
    the same instant. *)
Theorem debounce_collapses_burst
    (tie : bool) (first : Z) (rest : list Z) (T : Z)
    (Hburst : withinWindow DEBOUNCE_TIME first rest) :
  executionsBy T (calls tie (first :: rest) init)
  = if last rest first + 300 <=? T then [last rest first + 300] else [].
Proof.
  cbn [calls]. unfold init at 1. unfold fire at 1. cbn [timeout].
  unfold debouncedUpdate, debounced. cbn [runs].
  rewrite (calls_pending tie rest first [] Hburst).
  unfold executionsBy, fire, DEBOUNCE_TIME. cbn [timeout].
  now destruct (last rest first + 300 <=? T).
Qed.

(** Four calls 100 ms apart: one execution, at 600 ms. *)
Lemma debounce_collapses_burst_witness :
  executionsBy 599 (calls true [0; 100; 200; 300] init) = [] /\
  executionsBy 600 (calls true [0; 100; 200; 300] init) = [600] /\
  executionsBy 5000 (calls false [0; 100; 200; 300] init) = [600].
Proof.
  assert (H : withinWindow DEBOUNCE_TIME 0 [100; 200; 300])
    by (cbn; unfold DEBOUNCE_TIME; lia).
  exact (conj (debounce_collapses_burst true 0 [100; 200; 300] 599 H)
          (conj (debounce_collapses_burst true 0 [100; 200; 300] 600 H)
                (debounce_collapses_burst false 0 [100; 200; 300] 5000 H))).
Defined.

(** A call falling on the very instant the pending timer is due is outside
    the burst above: whether the update runs once or twice is then the
    host's choice. *)
Lemma debounce_same_instant_host_dependent :
  executionsBy 1000 (calls true [0; 300] init) = [300; 600] /\
  executionsBy 1000 (calls false [0; 300] init) = [600].
Proof. split; reflexivity. Qed.

End DebounceFacts.

(* ================================================================= *)
(** * Further properties of the layer panel *)

Module LayersMoreFacts.
Import Fabric Layers.
Local Open Scope nat_scope.

Lemma same_true (a b : FabricObject) : same a b = true <-> oid a = oid b.
Proof. unfold same. apply Nat.eqb_eq. Qed.

Lemma same_false (a b : FabricObject) : same a b = false <-> oid a <> oid b.
Proof. unfold same. apply Nat.eqb_neq. Qed.

Lemma remove_none (l : list FabricObject) (d : FabricObject) :
  (forall o, In o l -> same o d = false) -> remove l d = l.
Proof.
  induction l as [| o l IH]; intros H; [reflexivity |].
  cbn [remove]. rewrite (H o (or_introl eq_refl)). f_equal.
  apply IH. intros o' Ho'. apply H. now right.
Qed.

Lemma remove_middle (l1 l2 : list FabricObject) (d : FabricObject) :
  (forall o, In o l1 -> same o d = false) ->
  remove (l1 ++ d :: l2) d = l1 ++ l2.
Proof.
  induction l1 as [| o l1 IH]; intros H; cbn [app remove].
  - assert (E : same d d = true) by now apply same_true.
    now rewrite E.
  - rewrite (H o (or_introl eq_refl)). f_equal.
    apply IH. intros o' Ho'. apply H. now right.
Qed.

(** With distinct identities, [canvas.remove] takes out the object itself. *)
Lemma remove_split (objs : list FabricObject) (d : FabricObject) :
  NoDup (map oid objs) -> In d objs ->
  exists l1 l2,
    objs = l1 ++ d :: l2 /\ remove objs d = l1 ++ l2 /\
    (forall o, In o (l1 ++ l2) -> same o d = false).
Proof.
  intros Hnd Hin. destruct (in_split _ _ Hin) as (l1 & l2 & ->).
  exists l1, l2. split; [reflexivity |].
  assert (Hoth : forall o, In o (l1 ++ l2) -> same o d = false).
  { intros o Ho. apply same_false. intros E.
    rewrite map_app in Hnd. cbn [map] in Hnd.
    apply NoDup_remove_2 in Hnd. apply Hnd.
    rewrite <- map_app, <- E. now apply in_map. }
  split; [| exact Hoth].
  apply remove_middle. intros o Ho. apply Hoth. apply in_or_app. now left.
Qed.

Lemma insertAt_shape (c : list FabricObject) (d : FabricObject) (i : Z) :
  exists k, insertAt c d i = firstn k c ++ d :: skipn k c.
Proof. unfold insertAt, JsArray.splice_insert. eexists. reflexivity. Qed.

Lemma designObjects_In (hp : Helpers) (objs : list FabricObject)
    (i : nat) (d : FabricObject) :
  nth_error (designObjects hp objs) i = Some d ->
  In d objs /\ isDesignObject hp d = true.
Proof.
  intros H. apply nth_error_In in H. unfold designObjects in H.
  now apply filter_In in H.
Qed.

(** Reordering neither loses nor duplicates anything.  On a canvas whose
    objects are distinct, [reorderLayers] returns a permutation of the
    canvas in which all the objects other than the one it took out keep
    their relative order. *)
Theorem reorderLayers_permutation
    (hp : Helpers) (fromIndex toIndex : nat)
    (objs result : list FabricObject)
    (Hdistinct : NoDup (map oid objs))
    (Hrun : reorderLayers hp fromIndex toIndex objs = Some result) :
  exists d,
    nth_error (designObjects hp objs) fromIndex = Some d /\
    Permutation objs result /\
    remove result d = remove objs d /\
    length result = length objs.
Proof.
  unfold reorderLayers in Hrun.
  destruct (nth_error (designObjects hp objs) fromIndex) as [d |] eqn:Hd;
    [| discriminate].
  exists d. split; [reflexivity |].
  destruct (designObjects_In _ _ _ _ Hd) as [Hin _].
  destruct (remove_split objs d Hdistinct Hin) as (l1 & l2 & E & Er & Hoth).
  assert (Hshape : exists k,
            result = firstn k (remove objs d) ++ d :: skipn k (remove objs d)).
  { destruct (Nat.eqb toIndex 0); injection Hrun as <-; apply insertAt_shape. }
  destruct Hshape as [k ->]. rewrite Er in *.
  assert (Hperm : Permutation objs
                    (firstn k (l1 ++ l2) ++ d :: skipn k (l1 ++ l2))).
  { rewrite E. rewrite <- Permutation_middle.
    rewrite <- (Permutation_middle (firstn k (l1 ++ l2))).
    now rewrite firstn_skipn. }
  split; [exact Hperm |]. split.
  - rewrite remove_middle; [apply firstn_skipn |].
    intros o Ho. apply Hoth. rewrite <- (firstn_skipn k (l1 ++ l2)).
    apply in_or_app. now left.
  - symmetry. now apply Permutation_length.
Qed.

(** Dropping on the top row never brings anything to the top.  When the
    canvas keeps at least one object after the removal, the object taken out
    is put back directly below the last-painted one. *)
Theorem reorderLayers_to_top_is_second
    (hp : Helpers) (fromIndex : nat) (objs rest : list FabricObject)
    (d lastObj : FabricObject)
    (Hd : nth_error (designObjects hp objs) fromIndex = Some d)
    (Hrest : remove objs d = rest ++ [lastObj]) :
  reorderLayers hp fromIndex 0 objs = Some (rest ++ [d; lastObj]).
Proof.
  unfold reorderLayers. rewrite Hd. cbn [Nat.eqb]. rewrite Hrest.
  unfold insertAt, JsArray.splice_insert.
  rewrite length_app. cbn [length].
  replace (Z.of_nat (length rest + 1) - 1)%Z with (Z.of_nat (length rest))
    by lia.
  destruct (Z.ltb_spec (Z.of_nat (length rest)) 0); [lia |].
  rewrite Z.min_l by lia. rewrite Nat2Z.id.
  rewrite firstn_app, firstn_all, Nat.sub_diag, skipn_app, skipn_all,
    Nat.sub_diag.
  cbn [firstn skipn app]. now rewrite app_nil_r.
Qed.

Lemma indexOf_first (l1 l2 : list FabricObject) (t : FabricObject) :
  (forall o, In o l1 -> same o t = false) ->
  indexOf (l1 ++ t :: l2) (Some t) = Z.of_nat (length l1).
Proof.
  induction l1 as [| o l1 IH]; intros H; cbn [app indexOf length].
  - assert (E : same t t = true) by now apply same_true.
    now rewrite E.
  - rewrite (H o (or_introl eq_refl)).
    rewrite IH by (intros o' Ho'; apply H; now right).
    destruct (Z.ltb_spec (Z.of_nat (length l1)) 0); lia.
Qed.

(** Dropping on any other row.  With distinct objects, [reorderLayers(from,
    to)] with [to] not 0 puts [objects[from]] back directly below
    [objects[to]] in paint order (the indices being those of the filtered
    array in paint order). *)
Theorem reorderLayers_lands_below_target
    (hp : Helpers) (fromIndex toIndex : nat) (objs : list FabricObject)
    (d t : FabricObject)
    (Hdistinct : NoDup (map oid objs))
    (Hto : toIndex <> 0) (Hne : fromIndex <> toIndex)
    (Hd : nth_error (designObjects hp objs) fromIndex = Some d)
    (Ht : nth_error (designObjects hp objs) toIndex = Some t) :
  exists l1 l2,
    remove objs d = l1 ++ t :: l2 /\
    reorderLayers hp fromIndex toIndex objs = Some (l1 ++ d :: t :: l2).
Proof.
  destruct (designObjects_In _ _ _ _ Hd) as [Hind _].
  destruct (designObjects_In _ _ _ _ Ht) as [Hint _].
  destruct (remove_split objs d Hdistinct Hind) as (a1 & a2 & E & Er & Hoth).
  assert (Hdt : oid d <> oid t).
  { intros Eo.
    assert (Hnd : NoDup (map oid (designObjects hp objs))).
    { unfold designObjects. clear - Hdistinct.
      induction objs as [| o objs IH]; [constructor |].
      cbn [map] in Hdistinct. inversion Hdistinct as [| ? ? Hn Hrest]; subst.
      cbn [filter]. destruct (isDesignObject hp o); [| now apply IH].
      cbn [map]. constructor; [| now apply IH].
      intros Hin. apply Hn. apply in_map_iff in Hin.
      destruct Hin as (o' & Eo' & Ho'). apply filter_In in Ho'.
      rewrite <- Eo'. apply in_map. tauto. }
    apply Hne.
    apply (proj1 (NoDup_nth_error _) Hnd fromIndex toIndex).
    - apply nth_error_Some. rewrite nth_error_map, Hd. discriminate.
    - rewrite !nth_error_map, Hd, Ht. cbn [option_map]. now rewrite Eo. }
  assert (Hin : In t (remove objs d)).
  { rewrite Er. rewrite E in Hint. apply in_app_or in Hint.
    apply in_or_app. destruct Hint as [H | [H | H]]; auto.
    subst. congruence. }
  assert (Hnd' : NoDup (map oid (remove objs d))).
  { rewrite Er. rewrite E, map_app in Hdistinct. cbn [map] in Hdistinct.
    apply NoDup_remove_1 in Hdistinct. now rewrite map_app. }
  destruct (remove_split (remove objs d) t Hnd' Hin)
    as (l1 & l2 & E' & _ & Hoth').
  exists l1, l2. split; [exact E' |].
  unfold reorderLayers. rewrite Hd, Ht.
  destruct (Nat.eqb_spec toIndex 0); [contradiction |].
  rewrite E'. rewrite indexOf_first
    by (intros o Ho; apply Hoth'; apply in_or_app; now left).
  unfold insertAt, JsArray.splice_insert.
  destruct (Z.ltb_spec (Z.of_nat (length l1)) 0); [lia |].
  rewrite length_app. cbn [length].
  rewrite Z.min_l by lia. rewrite Nat2Z.id.
  rewrite firstn_app, firstn_all, Nat.sub_diag, skipn_app, skipn_all,
    Nat.sub_diag.
  cbn [firstn skipn app]. now rewrite app_nil_r.
Qed.

Lemma isDesignObject_iff (hp : Helpers) (o : FabricObject) :
  isDesignObject hp o = true <->
  oid o <> safeRect hp /\ oid o <> bleedRect hp /\
  oid o <> vGuide hp /\ oid o <> hGuide hp /\ excludeFromLayers o = false.
Proof.
  unfold isDesignObject.
  rewrite !andb_true_iff, !negb_true_iff, !Nat.eqb_neq. tauto.
Qed.

(** The rows of the layer panel.  They are the canvas objects that are none
    of the four helpers and are not flagged [excludeFromLayers], each listed
    once when the canvas objects are distinct, the last painted one first:
    row [i] of [n] is the design object of paint index [n - 1 - i]. *)
Theorem layerRows_projection (hp : Helpers) (objs : list FabricObject) :
  (forall o, In o (layerRows hp objs) <->
     In o objs /\
     oid o <> safeRect hp /\ oid o <> bleedRect hp /\
     oid o <> vGuide hp /\ oid o <> hGuide hp /\
     excludeFromLayers o = false) /\
  (forall i, i < length (designObjects hp objs) ->
     nth_error (layerRows hp objs) i =
     nth_error (designObjects hp objs)
               (length (designObjects hp objs) - 1 - i)) /\
  (NoDup (map oid objs) -> NoDup (map oid (layerRows hp objs))).
Proof.
  split; [| split].
  - intros o. unfold layerRows, designObjects.
    rewrite <- in_rev, filter_In, isDesignObject_iff. tauto.
  - intros i Hi. unfold layerRows.
    rewrite nth_error_rev.
    destruct (Nat.ltb_spec i (length (designObjects hp objs))); [| lia].
    f_equal. lia.
  - intros Hnd. unfold layerRows. rewrite map_rev.
    apply NoDup_rev. unfold designObjects.
    induction objs as [| o objs IH]; [constructor |].
    cbn [map] in Hnd. inversion Hnd as [| ? ? Hn Hrest]; subst.
    cbn [filter]. destruct (isDesignObject hp o); [| now apply IH].
    cbn [map]. constructor; [| now apply IH].
    intros Hin. apply Hn. apply in_map_iff in Hin.
    destruct Hin as (o' & Eo' & Ho'). apply filter_In in Ho'.
    rewrite <- Eo'. apply in_map. tauto.
Qed.

Lemma threeLayers_distinct : NoDup (map oid Samples.threeLayers).
Proof.
  cbn. repeat (constructor; [cbn; intuition discriminate |]). constructor.
Qed.

(** The three rows of the sample canvas. *)
Lemma layerRows_projection_witness :
  map oid (layerRows Samples.helpers Samples.threeLayers) = [12; 11; 10] /\
  NoDup (map oid (layerRows Samples.helpers Samples.threeLayers)).
Proof.
  split; [reflexivity |].
  exact (proj2 (proj2 (layerRows_projection Samples.helpers
                         Samples.threeLayers)) threeLayers_distinct).
Defined.

(** Dropping row 2 on row 0 of the sample canvas permutes its objects. *)
Lemma reorderLayers_permutation_witness :
  exists r,
    reorderLayers Samples.helpers 2 0 Samples.threeLayers = Some r /\
    Permutation Samples.threeLayers r /\ length r = 7.
Proof.
  eexists. split; [reflexivity |].
  destruct (reorderLayers_permutation Samples.helpers 2 0 Samples.threeLayers
              _ threeLayers_distinct eq_refl) as (d & _ & P & _ & L).
  exact (conj P L).
Defined.

(** On the sample canvas, object 12 dropped on the top row lands below
    object 11. *)
Lemma reorderLayers_to_top_is_second_witness :
  option_map (map oid)
    (reorderLayers Samples.helpers 2 0 Samples.threeLayers)
  = Some [0; 1; 2; 3; 10; 12; 11].
Proof.
  rewrite (reorderLayers_to_top_is_second Samples.helpers 2
             Samples.threeLayers
             [ Samples.helper 0 "rect"; Samples.helper 1 "rect";
               Samples.helper 2 "line"; Samples.helper 3 "line";
               Samples.image 10 100 100 ]
             (Samples.image 12 300 100) (Samples.image 11 200 100)
             eq_refl eq_refl).
  reflexivity.
Defined.

(** On the sample canvas, [reorderLayers(0, 2)] puts object 10 directly
    below object 12. *)
Lemma reorderLayers_lands_below_target_witness :
  option_map (map oid)
    (reorderLayers Samples.helpers 0 2 Samples.threeLayers)
  = Some [0; 1; 2; 3; 11; 10; 12].
Proof.
  destruct (reorderLayers_lands_below_target Samples.helpers 0 2
              Samples.threeLayers (Samples.image 10 100 100)
              (Samples.image 12 300 100) threeLayers_distinct
              ltac:(discriminate) ltac:(discriminate) eq_refl eq_refl)
    as (l1 & l2 & _ & _).
  reflexivity.
Defined.

End LayersMoreFacts.

(* ================================================================= *)
(** * Further properties of the constraint engine and the warning modal *)

Module ConstraintMoreFacts.
Import Fabric Constraint ConstraintFacts.

Section BoundsFacts.

Variable getBoundingRect : FabricObject -> Rect.t.
Variable safe : Rect.t.
Variable bleed : Rect.t.

Lemma clampText_fixed (obj : FabricObject) :
  width obj * scaleX obj <= Rect.width safe ->
  height obj * scaleY obj <= Rect.height safe ->
  Rect.left safe + width obj * scaleX obj / 2 <= left obj
    <= Rect.left safe + Rect.width safe - width obj * scaleX obj / 2 ->
  Rect.top safe + height obj * scaleY obj / 2 <= top obj
    <= Rect.top safe + Rect.height safe - height obj * scaleY obj / 2 ->
  clampText safe obj = obj.
Proof.
  intros Hw Hh Hx Hy. unfold clampText. cbn zeta.
  repeat case_lt; try (exfalso; qhalf; lra).
  now destruct obj.
Qed.

(** A text that fits the safe zone and whose center is within the clamp
    range is left exactly as it is by [checkBounds]. *)
Theorem checkBounds_text_inside_unchanged
    (now : Z) (m : Modal.t) (obj : FabricObject)
    (Htext : isText obj = true)
    (Hw : width obj * scaleX obj <= Rect.width safe)
    (Hh : height obj * scaleY obj <= Rect.height safe)
    (Hx : Rect.left safe + width obj * scaleX obj / 2 <= left obj
          <= Rect.left safe + Rect.width safe - width obj * scaleX obj / 2)
    (Hy : Rect.top safe + height obj * scaleY obj / 2 <= top obj
          <= Rect.top safe + Rect.height safe - height obj * scaleY obj / 2) :
  fst (checkBounds getBoundingRect safe bleed now (Some obj) m) = Some obj.
Proof.
  rewrite checkBounds_text by exact Htext.
  now rewrite clampText_fixed.
Qed.

(** [checkBounds] is idempotent on text: a second call, at any later time
    and whatever the modal shows by then, returns the object the first call
    returned. *)
Theorem checkBounds_text_idempotent
    (now now' : Z) (m m' : Modal.t) (obj : FabricObject)
    (Htext : isText obj = true)
    (Hw : 0 < width obj) (Hh : 0 < height obj) :
  let once := fst (checkBounds getBoundingRect safe bleed now (Some obj) m) in
  fst (checkBounds getBoundingRect safe bleed now' once m') = once.
Proof.
  cbn zeta. rewrite checkBounds_text by exact Htext.
  pose proof (clampText_frame safe obj) as (_ & Ft & Fw & Fh & _).
  rewrite checkBounds_text by (unfold isText in *; now rewrite Ft).
  f_equal. apply clampText_fixed;
    pose proof (clampText_position safe obj) as P;
    pose proof (clampText_scale safe obj) as [Sx Sy];
    cbn zeta in P; rewrite ?Fw, ?Fh, ?Sx, ?Sy;
    assert (Ew : width obj * (Rect.width safe / width obj) == Rect.width safe)
      by (apply Qmult_div_r; lra);
    assert (Eh : height obj * (Rect.height safe / height obj)
                 == Rect.height safe)
      by (apply Qmult_div_r; lra);
    destruct (Qltb_spec (Rect.width safe) (width obj * scaleX obj));
    destruct (Qltb_spec (Rect.height safe) (height obj * scaleY obj));
    rewrite ?Ew, ?Eh; try apply Qle_refl; try assumption; apply P.
Qed.

End BoundsFacts.

Section SnapFacts.

Variable canvasWidth : Q.
Variable canvasHeight : Q.

Lemma Qabs_lt_iff (a b : Q) : Qabs a < b <-> - b < a /\ a < b.
Proof. apply Qabs_Qlt_condition. Qed.

(** [snapToCenter] never moves the center by 10 px or more on either axis,
    never touches size, scale or rotation, and returns the object itself
    when neither guide is shown. *)
Theorem snapToCenter_moves_less_than_threshold (obj : FabricObject) :
  let c := getCenterPoint obj in
  let r := snapToCenter canvasWidth canvasHeight obj DEFAULT_SNAP_PX in
  let obj' := fst (fst r) in
  let c' := getCenterPoint obj' in
  Qabs (x c' - x c) < 10 /\ Qabs (y c' - y c) < 10 /\
  width obj' = width obj /\ height obj' = height obj /\
  scaleX obj' = scaleX obj /\ scaleY obj' = scaleY obj /\
  angle obj' = angle obj /\
  (vGuide (snd (fst r)) = false -> hGuide (snd (fst r)) = false ->
   obj' = obj).
Proof.
  unfold snapToCenter, DEFAULT_SNAP_PX. cbn zeta.
  destruct (Qltb_spec (Qabs (x (getCenterPoint obj) - canvasWidth / 2)) 10)
    as [Hx | Hx];
    destruct (Qltb_spec (Qabs (y (getCenterPoint obj) - canvasHeight / 2)) 10)
    as [Hy | Hy];
    obj_simpl; cbn [vGuide hGuide];
    try apply Qabs_lt_iff in Hx; try apply Qabs_lt_iff in Hy;
    repeat split; try reflexivity; try discriminate;
    try (apply Qabs_lt_iff; lra).
Qed.

(** [snapToCenter] is idempotent: on the object it returned it returns it
    again, with the same guides. *)
Theorem snapToCenter_idempotent (obj : FabricObject) :
  let r := snapToCenter canvasWidth canvasHeight obj DEFAULT_SNAP_PX in
  snapToCenter canvasWidth canvasHeight (fst (fst r)) DEFAULT_SNAP_PX = r.
Proof.
  unfold snapToCenter, DEFAULT_SNAP_PX. cbn zeta.
  assert (Z0 : forall a : Q, Qabs (a - a) < 10).
  { intros a. apply Qabs_lt_iff. lra. }
  destruct (Qltb_spec (Qabs (x (getCenterPoint obj) - canvasWidth / 2)) 10)
    as [Hx | Hx];
    destruct (Qltb_spec (Qabs (y (getCenterPoint obj) - canvasHeight / 2)) 10)
    as [Hy | Hy];
    obj_simpl;
    repeat match goal with
    | |- context [Qltb ?a ?b] =>
        destruct (Qltb_spec a b); obj_simpl
    end;
    try reflexivity; exfalso;
    repeat match goal with
    | H : 10 <= Qabs (?a - ?a) |- _ => pose proof (Z0 a); lra
    | H : Qabs _ < 10 |- _ => lra
    end.
Qed.

End SnapFacts.

(** Two warnings in a row.  [showModal] never clears the timer of an
    earlier warning: when a second warning is shown less than 3 s after the
    first, the first one's timer hides the modal 3 s after the first call,
    while the second warning's own timer is still pending. *)
Theorem showModal_hidden_by_older_timer
    (t1 t2 : Z) (msg1 msg2 : string) (m : Modal.t)
    (Hlate : (t1 < t2 < t1 + 3000)%Z) :
  let m2 := Modal.showModal t2 msg2 (Modal.showModal t1 msg1 m) in
  Modal.display m2 = true /\
  Modal.message m2 = msg2 /\
  Modal.display (Modal.runTimers (t1 + 3000) m2) = false /\
  In (t2 + 3000)%Z (Modal.hideTimers (Modal.runTimers (t1 + 3000) m2)).
Proof.
  cbn zeta. split; [reflexivity |]. split; [reflexivity |].
  unfold Modal.runTimers, Modal.showModal. cbn [Modal.hideTimers].
  rewrite !existsb_app. cbn [existsb]. rewrite Z.leb_refl.
  rewrite orb_true_r. cbn [orb Modal.display Modal.hideTimers].
  split; [reflexivity |].
  rewrite !filter_app. cbn [filter].
  destruct (Z.leb_spec (t2 + 3000) (t1 + 3000)); [lia |].
  cbn [negb]. apply in_or_app. right. now left.
Qed.

Lemma showModal_hidden_by_older_timer_witness :
  let m2 := Modal.showModal 2000 WARNING
              (Modal.showModal 0 WARNING Modal.hidden) in
  Modal.display m2 = true /\
  Modal.display (Modal.runTimers 3000 m2) = false.
Proof.
  destruct (showModal_hidden_by_older_timer 0 2000 WARNING WARNING
              Modal.hidden ltac:(lia)) as (D & _ & H & _).
  exact (conj D H).
Defined.

(** A text that sits in the middle of the default safe zone. *)
Lemma checkBounds_text_inside_unchanged_witness :
  let obj := Fabric.set_scaleX 1 (Fabric.set_scaleY 1
               (Samples.bigText 307 115)) in
  fst (checkBounds Samples.axisAlignedBounds Samples.safe Samples.bleed 0
         (Some obj) Modal.hidden) = Some obj.
Proof.
  cbn zeta.
  apply (checkBounds_text_inside_unchanged Samples.axisAlignedBounds
           Samples.safe Samples.bleed 0 Modal.hidden);
    [reflexivity | qcompute | qcompute | split; qcompute | split; qcompute].
Defined.

(** The oversized sample text, checked twice. *)
Lemma checkBounds_text_idempotent_witness :
  let once := fst (checkBounds Samples.axisAlignedBounds Samples.safe
                     Samples.bleed 0 (Some (Samples.bigText 0 0))
                     Modal.hidden) in
  fst (checkBounds Samples.axisAlignedBounds Samples.safe Samples.bleed 50
         once Modal.hidden) = once.
Proof.
  apply (checkBounds_text_idempotent Samples.axisAlignedBounds Samples.safe
           Samples.bleed 0 50 Modal.hidden Modal.hidden
           (Samples.bigText 0 0));
    [reflexivity | qcompute | qcompute].
Defined.

(** An object far from both center lines comes back as it is. *)
Lemma snapToCenter_moves_less_than_threshold_witness :
  fst (fst (snapToCenter 614 230 (Samples.image 10 100 50) DEFAULT_SNAP_PX))
  = Samples.image 10 100 50.
Proof.
  destruct (snapToCenter_moves_less_than_threshold 614 230
              (Samples.image 10 100 50)) as (_ & _ & _ & _ & _ & _ & _ & H).
  apply H; reflexivity.
Defined.

End ConstraintMoreFacts.

(* ================================================================= *)
(** * Properties of the canvas layout and of image placement *)

Module LayoutFacts.
Import Fabric Layout ConstraintFacts.

Lemma div_aspect (a : Q) : a / ASPECT_RATIO == a * (230 # 614).
Proof. unfold ASPECT_RATIO, DEFAULT_CANVAS_WIDTH, DEFAULT_CANVAS_HEIGHT. field. Qed.

Lemma mul_aspect (a : Q) : a * ASPECT_RATIO == a * (614 # 230).
Proof. unfold ASPECT_RATIO, DEFAULT_CANVAS_WIDTH, DEFAULT_CANVAS_HEIGHT. field. Qed.

(** The canvas dimensions [updateCanvasSize] chooses. *)
Lemma updateCanvasSize_dims (cw ch : Q) (l : t) :
  let l' := updateCanvasSize cw ch l in
  let w0 := Qmin (cw - 32) DEFAULT_CANVAS_WIDTH in
  (ch - 32 < w0 / ASPECT_RATIO /\
   canvasWidth l' = (ch - 32) * ASPECT_RATIO /\ canvasHeight l' = ch - 32)
  \/
  (w0 / ASPECT_RATIO <= ch - 32 /\
   canvasWidth l' = w0 /\ canvasHeight l' = w0 / ASPECT_RATIO).
Proof.
  unfold updateCanvasSize. cbn zeta.
  destruct (Qltb_spec (ch - 32)
              (Qmin (cw - 32) DEFAULT_CANVAS_WIDTH / ASPECT_RATIO));
    cbn [canvasWidth canvasHeight]; [left | right]; auto.
Qed.

(** The resized canvas fits the container less 32 px each way, is never
    wider than the default 614 px, and keeps the default aspect ratio, for
    any container size. *)
Theorem updateCanvasSize_fits_container (cw ch : Q) (l : t) :
  let l' := updateCanvasSize cw ch l in
  canvasWidth l' <= 614 /\
  canvasWidth l' <= cw - 32 /\
  canvasHeight l' <= ch - 32 /\
  canvasWidth l' == canvasHeight l' * ASPECT_RATIO.
Proof.
  cbn zeta.
  pose proof (Q.le_min_l (cw - 32) DEFAULT_CANVAS_WIDTH) as M1.
  pose proof (Q.le_min_r (cw - 32) DEFAULT_CANVAS_WIDTH) as M2.
  destruct (updateCanvasSize_dims cw ch l) as [(H & -> & ->) | (H & -> & ->)];
    rewrite ?div_aspect, ?mul_aspect in *;
    unfold DEFAULT_CANVAS_WIDTH in *;
    set (w0 := Qmin (cw - 32) 614) in *;
    repeat split; try lra.
Qed.

(** The layouts the program builds are well formed as long as the canvas
    has room for the safe rectangle: the bleed rectangle strictly contains
    the safe rectangle (which has a non-negative extent) and reaches 10 px
    beyond the canvas, the safe rectangle keeps its margins, and the guides
    lie on the center lines.  This holds after [setupFabric], and after
    [updateCanvasSize] exactly when the canvas it sets is at least 120 px
    wide and 8 px high, which is so in every container of at least
    152 x 77 px, whatever the layout before. *)
Theorem layout_wellFormed :
  wellFormed setupFabric /\
  (forall (cw ch : Q) (l : t),
     let l' := updateCanvasSize cw ch l in
     (wellFormed l' <-> 120 <= canvasWidth l' /\ 8 <= canvasHeight l') /\
     (152 <= cw -> 77 <= ch -> wellFormed l')).
Proof.
  split.
  - unfold wellFormed, strictlyInside, setupFabric. cbn.
    repeat split; qcompute.
  - intros cw ch l. cbn zeta.
    assert (Iff : wellFormed (updateCanvasSize cw ch l) <->
                  120 <= canvasWidth (updateCanvasSize cw ch l) /\
                  8 <= canvasHeight (updateCanvasSize cw ch l)).
    { unfold wellFormed, strictlyInside, updateCanvasSize. cbn zeta.
      destruct (Qltb_spec (ch - 32)
                  (Qmin (cw - 32) DEFAULT_CANVAS_WIDTH / ASPECT_RATIO));
        cbn [canvasWidth canvasHeight safeRect bleedRect vGuide hGuide
             x1 y1 x2 y2 Rect.left Rect.top Rect.width Rect.height];
        unfold BLEED_MARGIN;
        (split; [intros ((Hw & Hh & _) & _); split; lra
                | intros [Hw Hh]; repeat split; try reflexivity; lra]). }
    split; [exact Iff |].
    intros Hcw Hch. apply Iff.
    pose proof (Q.min_spec (cw - 32) DEFAULT_CANVAS_WIDTH) as M.
    destruct (updateCanvasSize_dims cw ch l)
      as [(H & -> & ->) | (H & -> & ->)];
      rewrite ?div_aspect, ?mul_aspect in *;
      unfold DEFAULT_CANVAS_WIDTH in *;
      set (w0 := Qmin (cw - 32) 614) in *;
      destruct M as [[? M] | [? M]]; split; lra.
Qed.

Lemma layout_wellFormed_witness :
  wellFormed (updateCanvasSize 1000 600 setupFabric).
Proof.
  apply (proj2 (proj2 layout_wellFormed 1000 600 setupFabric)); qcompute.
Defined.

(** Containers at the two ends.  In a container of at least 646 x 262 the
    canvas gets its default size 614 x 230 and the safe rectangle its
    default extent 494 x 222; in a container narrower than 152 px the safe
    rectangle gets a negative width. *)
Theorem updateCanvasSize_extremes (cw ch : Q) (l : t) :
  let l' := updateCanvasSize cw ch l in
  (646 <= cw -> 262 <= ch ->
     canvasWidth l' == 614 /\ canvasHeight l' == 230 /\
     Rect.width (safeRect l') == 494 /\ Rect.height (safeRect l') == 222) /\
  (cw < 152 -> Rect.width (safeRect l') < 0).
Proof.
  cbn zeta.
  pose proof (Q.min_spec (cw - 32) DEFAULT_CANVAS_WIDTH) as M.
  pose proof (Q.le_min_l (cw - 32) DEFAULT_CANVAS_WIDTH) as M1.
  assert (W : Rect.width (safeRect (updateCanvasSize cw ch l))
              = canvasWidth (updateCanvasSize cw ch l) - (60 + 60)).
  { unfold updateCanvasSize. cbn zeta.
    now destruct (Fabric.Qltb _ _). }
  assert (Hh : Rect.height (safeRect (updateCanvasSize cw ch l))
              = canvasHeight (updateCanvasSize cw ch l) - (3 + 5)).
  { unfold updateCanvasSize. cbn zeta.
    now destruct (Fabric.Qltb _ _). }
  rewrite W, Hh.
  destruct (updateCanvasSize_dims cw ch l) as [(H & -> & ->) | (H & -> & ->)];
    rewrite ?div_aspect, ?mul_aspect in *;
    unfold DEFAULT_CANVAS_WIDTH in *;
    set (w0 := Qmin (cw - 32) 614) in *;
    (split; [intros Hw Hc | intros Hn]);
    try (destruct M as [[? M] | [? M]]); repeat split; try lra.
Qed.

Lemma updateCanvasSize_extremes_witness :
  let big := updateCanvasSize 1000 600 setupFabric in
  let narrow := updateCanvasSize 100 600 setupFabric in
  (canvasWidth big == 614 /\ canvasHeight big == 230) /\
  Rect.width (safeRect narrow) < 0.
Proof.
  destruct (updateCanvasSize_extremes 1000 600 setupFabric) as [B _].
  destruct (updateCanvasSize_extremes 100 600 setupFabric) as [_ N].
  destruct B as (Bw & Bh & _); [qcompute | qcompute |].
  split; [exact (conj Bw Bh) | apply N; qcompute].
Defined.

End LayoutFacts.

Module PlacementFacts.
Import Fabric Constraint ConstraintFacts Placement.

Lemma le_div_mult (a b c : Q) : 0 < c -> a <= b / c -> c * a <= b.
Proof.
  intros Hc H. apply (Qmult_le_compat_r _ _ c) in H; [| lra].
  assert (E : b / c * c == b) by (field; lra).
  rewrite E in H. lra.
Qed.

Lemma div_le_mult (a b c : Q) : 0 < c -> b / c <= a -> b <= c * a.
Proof.
  intros Hc H. apply (Qmult_le_compat_r _ _ c) in H; [| lra].
  assert (E : b / c * c == b) by (field; lra).
  rewrite E in H. lra.
Qed.

(** The scale of an uploaded or generated image: at most 0.3, and such that
    the scaled image fits the canvas less 40 px each way. *)
Lemma uploadScale_fits (cw ch iw ih : Q) :
  0 < iw -> 0 < ih ->
  uploadScale cw ch iw ih <= 3 # 10 /\
  iw * uploadScale cw ch iw ih <= cw - 40 /\
  ih * uploadScale cw ch iw ih <= ch - 40.
Proof.
  intros Hw Hh. unfold uploadScale.
  set (a := Qmin (3 # 10) ((cw - 40) / iw)).
  pose proof (Q.le_min_l a ((ch - 40) / ih)) as M1.
  pose proof (Q.le_min_r a ((ch - 40) / ih)) as M2.
  pose proof (Q.le_min_l (3 # 10) ((cw - 40) / iw)) as M3.
  pose proof (Q.le_min_r (3 # 10) ((cw - 40) / iw)) as M4.
  fold a in M3, M4.
  split; [lra |]. split; apply le_div_mult; try assumption; lra.
Qed.

Lemma uploadScale_pos (cw ch iw ih : Q) :
  40 < cw -> 40 < ch -> 0 < iw -> 0 < ih -> 0 < uploadScale cw ch iw ih.
Proof.
  intros Hcw Hch Hw Hh. unfold uploadScale.
  assert (A : 0 < (cw - 40) / iw) by (apply Qlt_shift_div_l; lra).
  assert (B : 0 < (ch - 40) / ih) by (apply Qlt_shift_div_l; lra).
  destruct (Q.min_spec (3 # 10) ((cw - 40) / iw)) as [[_ E1] | [_ E1]];
    destruct (Q.min_spec (Qmin (3 # 10) ((cw - 40) / iw)) ((ch - 40) / ih))
      as [[_ E2] | [_ E2]]; rewrite E2, ?E1; lra.
Qed.

(** Whatever scale is asked for, the one stored is positive. *)
Lemma storedScale_positive (v : Q) : 0 < storedScale v.
Proof.
  unfold storedScale. destruct (Qeq_bool v 0) eqn:E; [reflexivity |].
  apply Qeq_bool_neq in E.
  apply Qabs_case; intros H; lra.
Qed.

Lemma storedScale_pos (v : Q) : 0 < v -> storedScale v = v.
Proof.
  intros H. unfold storedScale.
  destruct (Qeq_bool v 0) eqn:E.
  - apply Qeq_bool_iff in E. lra.
  - destruct v as [n d]. unfold Qabs. f_equal.
    apply Z.abs_eq. unfold Qlt in H. cbn in H. lia.
Qed.

(** A freshly placed image never triggers the warning.  On a canvas more
    than 40 px wide and high, an image of positive size placed by
    [handleImageUpload] or [addAIGeneratedImage] has one positive scale of
    at most 0.3 on both axes and lies within the canvas less 20 px on every
    side; with a bleed rectangle that contains the canvas, the
    [checkBounds] call that follows returns it unchanged and leaves the
    modal alone. *)
Theorem placeImage_inside_no_warning
    (canvasWidth canvasHeight : Q) (safe bleed : Rect.t)
    (now : Z) (m : Modal.t) (img : FabricObject)
    (Hcw : 40 < canvasWidth) (Hch : 40 < canvasHeight)
    (Hbl : Rect.left bleed <= 0) (Hbt : Rect.top bleed <= 0)
    (Hbr : canvasWidth <= Rect.left bleed + Rect.width bleed)
    (Hbb : canvasHeight <= Rect.top bleed + Rect.height bleed)
    (Himg : isText img = false)
    (Hw : 0 < width img) (Hh : 0 < height img) :
  let placed := placeImage canvasWidth canvasHeight img in
  let b := Samples.axisAlignedBounds placed in
  scaleX placed = scaleY placed /\
  0 < scaleX placed /\ scaleX placed <= 3 # 10 /\
  0 <= Rect.width b /\ 0 <= Rect.height b /\
  20 <= Rect.left b /\ Rect.left b + Rect.width b <= canvasWidth - 20 /\
  20 <= Rect.top b /\ Rect.top b + Rect.height b <= canvasHeight - 20 /\
  checkBounds Samples.axisAlignedBounds safe bleed now (Some placed) m
  = (Some placed, m).
Proof.
  cbn zeta.
  pose proof (uploadScale_fits canvasWidth canvasHeight
                (width img) (height img) Hw Hh) as (S1 & S2 & S3).
  pose proof (uploadScale_pos canvasWidth canvasHeight
                (width img) (height img) Hcw Hch Hw Hh) as S0.
  assert (Ep : placeImage canvasWidth canvasHeight img
               = set_scaleY (uploadScale canvasWidth canvasHeight
                               (width img) (height img))
                   (set_scaleX (uploadScale canvasWidth canvasHeight
                                  (width img) (height img))
                      (set_top (canvasHeight / 2)
                         (set_left (canvasWidth / 2) img)))).
  { unfold placeImage. cbn zeta. now rewrite storedScale_pos. }
  set (s := uploadScale canvasWidth canvasHeight (width img) (height img))
    in *.
  set (placed := placeImage canvasWidth canvasHeight img) in *.
  assert (Pw : 0 <= width img * s) by (apply Qmult_le_0_compat; lra).
  assert (Ph : 0 <= height img * s) by (apply Qmult_le_0_compat; lra).
  assert (B : 0 <= Rect.width (Samples.axisAlignedBounds placed)
              /\ 0 <= Rect.height (Samples.axisAlignedBounds placed)
              /\ 20 <= Rect.left (Samples.axisAlignedBounds placed)
              /\ Rect.left (Samples.axisAlignedBounds placed)
                 + Rect.width (Samples.axisAlignedBounds placed)
                 <= canvasWidth - 20
              /\ 20 <= Rect.top (Samples.axisAlignedBounds placed)
              /\ Rect.top (Samples.axisAlignedBounds placed)
                 + Rect.height (Samples.axisAlignedBounds placed)
                 <= canvasHeight - 20).
  { rewrite Ep. unfold Samples.axisAlignedBounds.
    cbn [Rect.left Rect.top Rect.width Rect.height]. obj_simpl.
    qhalf. repeat split; lra. }
  destruct B as (B0 & B0' & B1 & B2 & B3 & B4).
  split; [now rewrite Ep |]. split; [now rewrite Ep |].
  split; [now rewrite Ep |].
  split; [exact B0 |]. split; [exact B0' |].
  split; [exact B1 |]. split; [exact B2 |].
  split; [exact B3 |]. split; [exact B4 |].
  unfold checkBounds, checkBoundsObj.
  assert (T : isText placed = false) by (rewrite Ep; exact Himg).
  rewrite T.
  assert (O : outsideBleed bleed (Samples.axisAlignedBounds placed) = false).
  { destruct (outsideBleed bleed _) eqn:E; [| reflexivity].
    apply outsideBleed_iff in E.
    exfalso. destruct E as [E | [E | [E | E]]]; lra. }
  now rewrite O.
Qed.

(** The pattern covers the safe area.  The scale [addPatternImage] gives a
    pattern image of positive size makes it at least as wide and as high as
    the safe area (canvas less the margins 60/60/3/5), exactly so on one of
    the two axes. *)
Theorem patternScale_covers_safe_area (cw ch iw ih : Q)
    (Hw : 0 < iw) (Hh : 0 < ih) :
  let s := patternScale cw ch iw ih in
  cw - 120 <= iw * s /\ ch - 8 <= ih * s /\
  (iw * s == cw - 120 \/ ih * s == ch - 8).
Proof.
  cbn zeta. unfold patternScale. cbn zeta.
  set (a := (cw - (60 + 60)) / iw). set (b := (ch - (3 + 5)) / ih).
  pose proof (Q.le_max_l a b) as M1.
  pose proof (Q.le_max_r a b) as M2.
  assert (Ea : iw * a == cw - 120) by (unfold a; field; lra).
  assert (Eb : ih * b == ch - 8) by (unfold b; field; lra).
  assert (Xa : iw * a <= iw * Qmax a b)
    by (rewrite !(Qmult_comm iw); apply Qmult_le_compat_r; lra).
  assert (Xb : ih * b <= ih * Qmax a b)
    by (rewrite !(Qmult_comm ih); apply Qmult_le_compat_r; lra).
  split; [lra |]. split; [lra |].
  destruct (Q.max_spec a b) as [[_ E] | [_ E]]; rewrite E; auto.
Qed.

(** The size slider at 100 % works from another height.  The scale
    [updatePatternProperties] then gives covers the canvas less 120 px in
    width and less 20 px in height; when the height is the binding side the
    pattern is exactly that high, 12 px less than the safe area
    [addPatternImage] covers. *)
Theorem patternSliderScale_full_size (cw ch iw ih : Q)
    (Hw : 0 < iw) (Hh : 0 < ih) :
  let s := patternSliderScale cw ch iw ih 1 in
  cw - 120 <= iw * s /\ ch - 20 <= ih * s /\
  ((cw - 120) / iw <= (ch - 20) / ih ->
   ih * s == ch - 20 /\ ih * s < ch - 8).
Proof.
  cbn zeta. unfold patternSliderScale. cbn zeta.
  set (a := (cw - 120) / iw). set (b := (ch - 20) / ih).
  pose proof (Q.le_max_l a b) as M1.
  pose proof (Q.le_max_r a b) as M2.
  assert (Ea : iw * a == cw - 120) by (unfold a; field; lra).
  assert (Eb : ih * b == ch - 20) by (unfold b; field; lra).
  assert (Xa : iw * a <= iw * Qmax a b)
    by (rewrite !(Qmult_comm iw); apply Qmult_le_compat_r; lra).
  assert (Xb : ih * b <= ih * Qmax a b)
    by (rewrite !(Qmult_comm ih); apply Qmult_le_compat_r; lra).
  rewrite Qmult_1_r.
  split; [lra |]. split; [lra |].
  intros Hab.
  assert (E : Qmax a b == b).
  { destruct (Q.max_spec a b) as [[_ E] | [Hba E]]; [exact E |].
    rewrite E. lra. }
  rewrite E. split; lra.
Qed.

Lemma placeImage_inside_no_warning_witness :
  let placed := placeImage 614 230 (Samples.image 10 0 0) in
  checkBounds Samples.axisAlignedBounds
    (Layout.safeRect Layout.setupFabric)
    (Layout.bleedRect Layout.setupFabric) 0 (Some placed) Modal.hidden
  = (Some placed, Modal.hidden).
Proof.
  destruct (placeImage_inside_no_warning 614 230
              (Layout.safeRect Layout.setupFabric)
              (Layout.bleedRect Layout.setupFabric) 0 Modal.hidden
              (Samples.image 10 0 0)
              ltac:(qcompute) ltac:(qcompute)
              ltac:(qcompute) ltac:(qcompute) ltac:(qcompute)
              ltac:(qcompute) eq_refl ltac:(qcompute) ltac:(qcompute))
    as (_ & _ & _ & _ & _ & _ & _ & _ & _ & H).
  exact H.
Defined.

(** A 1000 x 100 pattern on the default canvas: the height is binding. *)
Lemma patternScale_covers_safe_area_witness :
  494 <= 1000 * patternScale 614 230 1000 100 /\
  222 <= 100 * patternScale 614 230 1000 100.
Proof.
  destruct (patternScale_covers_safe_area 614 230 1000 100
              ltac:(qcompute) ltac:(qcompute)) as (A & B & _).
  split; [eapply Qle_trans; [| exact A] | eapply Qle_trans; [| exact B]];
    qcompute.
Defined.

Lemma patternSliderScale_full_size_witness :
  100 * patternSliderScale 614 230 1000 100 1 == 210.
Proof.
  destruct (patternSliderScale_full_size 614 230 1000 100
              ltac:(qcompute) ltac:(qcompute)) as (_ & _ & H).
  destruct H as [E _]; [qcompute |].
  rewrite E. qcompute.
Defined.

End PlacementFacts.

(* ================================================================= *)
(** * Properties of texture rendering and export *)

Module TextureExportFacts.
Import TextureExport.

Lemma show_hide (objects : list Obj) :
  showExportElements (hideExportElements objects)
  = map (fun o => if excludeFromExport o then setVisible true o else o)
        objects.
Proof.
  unfold showExportElements, hideExportElements. rewrite map_map.
  apply map_ext. intros o. now destruct (excludeFromExport o) eqn:E; cbn; rewrite ?E.
Qed.

(** Hiding and showing again does not restore what was there.  After
    [hideExportElements] and [showExportElements] (an export), and after a
    run of [updateMugTexture] with the mug loaded, every object flagged
    [excludeFromExport] is visible, whatever its visibility was, and every
    other object is as before. *)
Theorem export_leaves_helpers_visible
    (innerWidth : Q) (objects : list Obj) :
  let exported := showExportElements (hideExportElements objects) in
  after (updateMugTexture true innerWidth objects) = exported /\
  length exported = length objects /\
  (forall i o, nth_error objects i = Some o ->
     exists o', nth_error exported i = Some o' /\
       ref o' = ref o /\ excludeFromExport o' = excludeFromExport o /\
       (excludeFromExport o = true -> visible o' = true) /\
       (excludeFromExport o = false -> o' = o)).
Proof.
  cbn zeta. split; [| split].
  - unfold updateMugTexture. cbn [negb after]. reflexivity.
  - rewrite show_hide. apply length_map.
  - intros i o Hi. rewrite show_hide, nth_error_map, Hi. cbn [option_map].
    eexists. split; [reflexivity |].
    destruct (excludeFromExport o) eqn:E; cbn; rewrite ?E;
      repeat split; auto; discriminate.
Qed.

(** What the texture is rendered from.  Without the mug mesh
    [updateMugTexture] does nothing.  With it, the canvas is rasterised with
    all the [excludeFromExport] objects hidden and all the others as they
    are, at a multiplier of at most 4 and at most a 500th of the window
    width. *)
Theorem updateMugTexture_render (innerWidth : Q) (objects : list Obj) :
  updateMugTexture false innerWidth objects
    = {| rendered := None; after := objects |} /\
  exists seen multiplier,
    rendered (updateMugTexture true innerWidth objects)
      = Some (seen, multiplier) /\
    multiplier <= 4 /\ multiplier <= innerWidth / 500 /\
    length seen = length objects /\
    (forall o, In o seen -> excludeFromExport o = true -> visible o = false) /\
    (forall o, In o objects -> excludeFromExport o = false -> In o seen).
Proof.
  split; [reflexivity |].
  unfold updateMugTexture. cbn [negb rendered].
  eexists. eexists. split; [reflexivity |].
  split; [apply Q.le_min_l |]. split; [apply Q.le_min_r |].
  split; [apply length_map |]. split.
  - intros o Ho He. apply in_map_iff in Ho. destruct Ho as (o0 & E & _).
    destruct (excludeFromExport o0) eqn:E0; subst o; [reflexivity |].
    congruence.
  - intros o Ho He. apply in_map_iff. exists o. now rewrite He.
Qed.

(** The guides, created invisible, are visible after one texture update. *)
Lemma export_leaves_helpers_visible_witness :
  map visible
    (after (updateMugTexture true 1000
              [ {| ref := 2; visible := false; excludeFromExport := true |};
                {| ref := 10; visible := false; excludeFromExport := false |} ]))
  = [true; false].
Proof.
  rewrite (proj1 (export_leaves_helpers_visible 1000
             [ {| ref := 2; visible := false; excludeFromExport := true |};
               {| ref := 10; visible := false;
                  excludeFromExport := false |} ])).
  reflexivity.
Defined.

Lemma updateMugTexture_render_witness :
  exists seen multiplier,
    rendered (updateMugTexture true 1000
                [ {| ref := 2; visible := true; excludeFromExport := true |} ])
      = Some (seen, multiplier) /\ multiplier <= 4.
Proof.
  destruct (updateMugTexture_render 1000
              [ {| ref := 2; visible := true; excludeFromExport := true |} ])
    as (_ & seen & mult & E & M & _).
  exists seen, mult. exact (conj E M).
Defined.

End TextureExportFacts.

(* ================================================================= *)
(** * Properties of the analytics and of the font suggestions *)

Module AnalyticsFacts.
Import Analytics.
Local Open Scope nat_scope.

Lemma get_put_same (c : Counters) (k : string) (v : nat) :
  get (put c k v) k = v.
Proof.
  induction c as [| [k0 n] c IH]; cbn [put get].
  - now rewrite String.eqb_refl.
  - destruct (String.eqb k0 k) eqn:E; cbn [get]; rewrite E; auto.
Qed.

Lemma get_put_other (c : Counters) (k k' : string) (v : nat) :
  k <> k' -> get (put c k v) k' = get c k'.
Proof.
  intros Hne. induction c as [| [k0 n] c IH]; cbn [put get].
  - destruct (String.eqb_spec k k'); [contradiction | reflexivity].
  - destruct (String.eqb_spec k0 k) as [-> | Hk]; cbn [get].
    + destruct (String.eqb_spec k k'); [contradiction | reflexivity].
    + destruct (String.eqb k0 k'); auto.
Qed.

Lemma get_bump (c : Counters) (k k' : string) :
  get (put c k (get c k + 1)) k'
  = get c k' + (if String.eqb k k' then 1 else 0).
Proof.
  destruct (String.eqb_spec k k') as [-> | Hne].
  - apply get_put_same.
  - rewrite get_put_other by exact Hne. lia.
Qed.

Lemma track_counts (objects : list Obj) (a : t) (k : string) :
  get (fonts (fold_left track objects a)) k
    = get (fonts a) k + countText fontFamily k objects /\
  get (colors (fold_left track objects a)) k
    = get (colors a) k + countText fill k objects /\
  elementsCount (fold_left track objects a) = elementsCount a.
Proof.
  revert a. induction objects as [| o objects IH]; intros a.
  - cbn. lia.
  - cbn [fold_left]. destruct (IH (track a o)) as (F & C & E).
    rewrite F, C, E. unfold track, countText. cbn [filter].
    destruct (isText o); cbn [fonts colors elementsCount andb length].
    + rewrite !get_bump.
      destruct (String.eqb (fontFamily o) k), (String.eqb (fill o) k);
        cbn [length]; lia.
    + lia.
Qed.

(** The counters only grow.  [updateAnalytics] sets [elementsCount] to the
    number of canvas objects that are flagged neither [excludeFromLayers]
    nor [excludeFromExport], and adds to each font and colour counter the
    number of such text objects that use it, on top of what the counter
    held: called again on the same scene it adds the same numbers again. *)
Theorem updateAnalytics_accumulates
    (canvasObjects : list Obj) (a : t) (k : string) :
  let counted :=
    filter (fun o => negb (excludeFromLayers o) && negb (excludeFromExport o))
           canvasObjects in
  let a1 := updateAnalytics canvasObjects a in
  let a2 := updateAnalytics canvasObjects a1 in
  elementsCount a1 = length counted /\
  get (fonts a1) k = get (fonts a) k + countText fontFamily k counted /\
  get (colors a1) k = get (colors a) k + countText fill k counted /\
  elementsCount a2 = length counted /\
  get (fonts a2) k = get (fonts a) k + 2 * countText fontFamily k counted /\
  get (colors a2) k = get (colors a) k + 2 * countText fill k counted.
Proof.
  cbn zeta. unfold updateAnalytics.
  set (counted := filter _ canvasObjects).
  repeat match goal with
  | |- context [fold_left track counted ?x] =>
      let F := fresh "F" in let C := fresh "C" in let E := fresh "E" in
      destruct (track_counts counted x k) as (F & C & E);
      rewrite ?F, ?C, ?E; clear F C E
  end.
  cbn [fonts colors elementsCount].
  repeat match goal with
  | |- context [fold_left track counted ?x] =>
      let F := fresh "F" in let C := fresh "C" in let E := fresh "E" in
      destruct (track_counts counted x k) as (F & C & E);
      rewrite ?F, ?C, ?E; clear F C E
  end.
  cbn [fonts colors elementsCount]. repeat split; lia.
Qed.

Lemma existsb_eqb_In (s : string) (l : list string) :
  existsb (String.eqb s) l = true <-> In s l.
Proof.
  rewrite existsb_exists. split.
  - intros (x & Hx & E). apply String.eqb_eq in E. now subst.
  - intros H. exists s. split; [exact H | apply String.eqb_refl].
Qed.

Lemma dedupe_acc (arr acc : list string) :
  let r := fold_left (fun acc s => if existsb (String.eqb s) acc then acc
                                   else acc ++ [s]) arr acc in
  (NoDup acc -> NoDup r) /\ (forall x, In x r <-> In x acc \/ In x arr).
Proof.
  cbn zeta. revert acc. induction arr as [| s arr IH]; intros acc.
  - cbn. split; [auto | tauto].
  - cbn [fold_left]. destruct (existsb (String.eqb s) acc) eqn:E.
    + destruct (IH acc) as [N I]. split; [exact N |].
      intros x. rewrite I. cbn [In]. apply existsb_eqb_In in E.
      split; [tauto |]. intros [H | [H | H]]; subst; auto.
    + destruct (IH (acc ++ [s])) as [N I]. split.
      * intros Hnd. apply N. apply NoDup_app; [exact Hnd | | ].
        -- constructor; [intros [] | constructor].
        -- intros x Hx [Hs | []]. subst x.
           apply existsb_eqb_In in Hx. congruence.
      * intros x. rewrite I, in_app_iff. cbn [In]. tauto.
Qed.

Lemma dedupe_spec (arr : list string) :
  NoDup (dedupe arr) /\ (forall x, In x (dedupe arr) <-> In x arr).
Proof.
  destruct (dedupe_acc arr []) as [N I]. split.
  - apply N. constructor.
  - intros x. unfold dedupe. rewrite I. cbn [In]. tauto.
Qed.

Lemma collect_thrown (fonts : list string) :
  fold_left (fun suggestions font =>
               match suggestions with
               | None => None
               | Some collected =>
                   match fontPairs font with
                   | Own paired => Some (collected ++ paired)
                   | Inherited => None
                   | Absent => Some collected
                   end
               end) fonts None = None.
Proof. induction fonts as [| f fonts IH]; [reflexivity | exact IH]. Qed.

Lemma collect_acc (currentFonts acc : list string) :
  let r := fold_left (fun suggestions font =>
               match suggestions with
               | None => None
               | Some collected =>
                   match fontPairs font with
                   | Own paired => Some (collected ++ paired)
                   | Inherited => None
                   | Absent => Some collected
                   end
               end) currentFonts (Some acc) in
  ((exists font, In font currentFonts /\ fontPairs font = Inherited) ->
   r = None) /\
  ((forall font, In font currentFonts -> fontPairs font <> Inherited) ->
   exists collected,
     r = Some collected /\
     forall x, In x collected <->
       In x acc \/
       exists font paired,
         In font currentFonts /\ fontPairs font = Own paired /\ In x paired).
Proof.
  cbn zeta. revert acc. induction currentFonts as [| f fs IH]; intros acc.
  - cbn [fold_left]. split.
    + intros (font & [] & _).
    + intros _. exists acc. split; [reflexivity |].
      intros x. split; [tauto |]. intros [H | (? & ? & [] & _)]. exact H.
  - cbn [fold_left]. destruct (fontPairs f) as [paired | |] eqn:E.
    + destruct (IH (acc ++ paired)) as [T N]. split.
      * intros (font & [<- | Hf] & Hi); [congruence |].
        apply T. now exists font.
      * intros Hno. destruct N as (collected & Er & I).
        { intros font Hf. apply Hno. now right. }
        exists collected. split; [exact Er |].
        intros x. rewrite I, in_app_iff. split.
        -- intros [[H | H] | (font & p & Hf & Hp & Hx)]; auto.
           ++ right. exists f, paired. cbn. auto.
           ++ right. exists font, p. cbn. auto.
        -- intros [H | (font & p & [<- | Hf] & Hp & Hx)]; auto.
           ++ rewrite E in Hp. injection Hp as <-. auto.
           ++ right. exists font, p. auto.
    + split.
      * intros _. apply collect_thrown.
      * intros Hno. exfalso. apply (Hno f); [now left | exact E].
    + destruct (IH acc) as [T N]. split.
      * intros (font & [<- | Hf] & Hi); [congruence |].
        apply T. now exists font.
      * intros Hno. destruct N as (collected & Er & I).
        { intros font Hf. apply Hno. now right. }
        exists collected. split; [exact Er |].
        intros x. rewrite I. split.
        -- intros [H | (font & p & Hf & Hp & Hx)]; auto.
           right. exists font, p. cbn. auto.
        -- intros [H | (font & p & [<- | Hf] & Hp & Hx)]; auto.
           ++ congruence.
           ++ right. exists font, p. auto.
Qed.

Lemma fontPairs_known (font : string) (paired : list string) (x : string) :
  fontPairs font = Own paired -> In x paired ->
  In x ["Inter"; "Arial"; "Helvetica"; "Times New Roman"; "Georgia";
        "Verdana"]%string.
Proof.
  unfold fontPairs.
  repeat match goal with
  | |- context [String.eqb font ?k] => destruct (String.eqb font k)
  end; try destruct (existsb _ _);
  intros H; try discriminate; injection H as <-;
  cbn; intuition.
Qed.

(** The font suggestions.  When one of the current fonts is the name of a
    member every object inherits ([constructor], [toString], ...), the
    function throws.  Otherwise it returns a list without duplicates in
    which a font appears exactly when the table pairs it with one of the
    current fonts: fonts the table does not know contribute nothing, and
    every suggestion is one of the six fonts of the table. *)
Theorem getComplementaryFonts_spec (currentFonts : list string) :
  ((exists font, In font currentFonts /\ fontPairs font = Inherited) ->
   getComplementaryFonts currentFonts = None) /\
  ((forall font, In font currentFonts -> fontPairs font <> Inherited) ->
   exists suggestions,
     getComplementaryFonts currentFonts = Some suggestions /\
     NoDup suggestions /\
     (forall x, In x suggestions <->
        exists font paired,
          In font currentFonts /\ fontPairs font = Own paired /\
          In x paired) /\
     (forall x, In x suggestions ->
        In x ["Inter"; "Arial"; "Helvetica"; "Times New Roman"; "Georgia";
              "Verdana"]%string) /\
     ((forall font, In font currentFonts -> fontPairs font = Absent) ->
      suggestions = [])).
Proof.
  unfold getComplementaryFonts, collectPairs.
  destruct (collect_acc currentFonts []) as [T N]. cbn zeta in T, N.
  split.
  - intros H. now rewrite (T H).
  - intros Hno. destruct (N Hno) as (collected & -> & I).
    exists (dedupe collected). split; [reflexivity |].
    destruct (dedupe_spec collected) as [Nd Id].
    assert (M : forall x, In x (dedupe collected) <->
       exists font paired,
         In font currentFonts /\ fontPairs font = Own paired /\ In x paired).
    { intros x. rewrite Id, I. cbn [In]. tauto. }
    split; [exact Nd |]. split; [exact M |]. split.
    + intros x Hx. apply M in Hx. destruct Hx as (font & p & _ & Hp & Hx).
      exact (fontPairs_known font p x Hp Hx).
    + intros Habs. destruct (dedupe collected) as [| x rest];
        [reflexivity |].
      assert (Hx : In x (x :: rest)) by now left.
      apply M in Hx. destruct Hx as (font & p & Hf & Hp & _).
      rewrite (Habs font Hf) in Hp. discriminate.
Qed.

Lemma extract_acc (objects : list Obj) (acc : list string) (f : string) :
  In f (fold_left (fun fonts o =>
                     if isText o && truthy (fontFamily o)
                     then fonts ++ [fontFamily o] else fonts) objects acc)
  <-> In f acc \/
      exists o, In o objects /\ isText o = true /\
                fontFamily o = f /\ f <> EmptyString.
Proof.
  revert acc. induction objects as [| o objects IH]; intros acc.
  - cbn. split; [tauto |]. intros [H | (? & [] & _)]. exact H.
  - cbn [fold_left]. rewrite IH.
    destruct (isText o) eqn:Et; cbn [andb].
    + destruct (fontFamily o) as [| c rest] eqn:Ef; cbn [truthy].
      * split.
        -- intros [H | (o' & Ho & H)]; auto. right. exists o'. cbn. tauto.
        -- intros [H | (o' & [<- | Ho] & Ht & Hf & Hn)]; auto.
           ++ congruence.
           ++ right. exists o'. tauto.
      * rewrite in_app_iff. cbn [In]. split.
        -- intros [[H | [H | []]] | (o' & Ho & H)]; auto.
           ++ right. exists o. cbn. rewrite Ef, <- H.
              repeat split; auto. discriminate.
           ++ right. exists o'. cbn. tauto.
        -- intros [H | (o' & [<- | Ho] & Ht & Hf & Hn)]; auto.
           ++ left. right. left. congruence.
           ++ right. exists o'. tauto.
    + split.
      * intros [H | (o' & Ho & H)]; auto. right. exists o'. cbn. tauto.
      * intros [H | (o' & [<- | Ho] & Ht & Hf & Hn)]; auto.
        -- congruence.
        -- right. exists o'. tauto.
Qed.

(** [extractFontsFromDesign] lists each font family used by a text object
    of the canvas exactly once, and nothing else: objects that are not text
    and empty font families are left out. *)
Theorem extractFontsFromDesign_spec (canvasObjects : list Obj) :
  NoDup (extractFontsFromDesign canvasObjects) /\
  (forall f, In f (extractFontsFromDesign canvasObjects) <->
     exists o, In o canvasObjects /\ isText o = true /\
               fontFamily o = f /\ f <> EmptyString).
Proof.
  unfold extractFontsFromDesign.
  match goal with
  | |- NoDup (dedupe ?l) /\ _ => set (fonts := l)
  end.
  destruct (dedupe_spec fonts) as [N I]. split; [exact N |].
  intros f. rewrite I. unfold fonts. rewrite extract_acc. cbn [In]. tauto.
Qed.

(** A design in Arial and Georgia; a font family called [constructor]. *)
Lemma getComplementaryFonts_spec_witness :
  getComplementaryFonts ["Arial"; "Georgia"]%string
    = Some ["Georgia"; "Verdana"; "Arial"; "Inter"]%string /\
  getComplementaryFonts ["Arial"; "constructor"]%string = None.
Proof.
  destruct (getComplementaryFonts_spec ["Arial"; "Georgia"]%string)
    as [_ S].
  destruct (getComplementaryFonts_spec ["Arial"; "constructor"]%string)
    as [T _].
  split.
  - destruct S as (suggestions & E & _).
    + intros font [<- | [<- | []]]; discriminate.
    + reflexivity.
  - apply T. exists "constructor"%string. split; [cbn; auto | reflexivity].
Defined.

End AnalyticsFacts.

(* ================================================================= *)
(** * Further properties of the debounced texture update *)

Module DebounceMoreFacts.
Import Debounce DebounceFacts CallPatterns.
Local Open Scope Z_scope.

Lemma calls_spaced (tie : bool) (rest : list Z) (t : Z) (done : list Z) :
  spacedApart DEBOUNCE_TIME t rest ->
  calls tie rest {| timeout := Some (t + DEBOUNCE_TIME); runs := done |}
  = {| timeout := Some (last rest t + DEBOUNCE_TIME);
       runs := done ++ map (fun u => u + DEBOUNCE_TIME)
                           (removelast (t :: rest)) |}.
Proof.
  revert t done. induction rest as [| t1 rest IH]; intros t done H.
  - cbn. now rewrite app_nil_r.
  - destruct H as [Ht H]. cbn [calls].
    assert (F : fire tie t1
                  {| timeout := Some (t + DEBOUNCE_TIME); runs := done |}
                = {| timeout := None;
                     runs := JsArray.push done (t + DEBOUNCE_TIME) |}).
    { unfold fire. cbn [timeout runs].
      destruct tie;
        [destruct (Z.leb_spec (t + DEBOUNCE_TIME) t1)
        | destruct (Z.ltb_spec (t + DEBOUNCE_TIME) t1)];
        first [lia | reflexivity]. }
    rewrite F. unfold debouncedUpdate, debounced. cbn [runs].
    rewrite (IH t1 _ H), last_cons. unfold JsArray.push.
    rewrite <- app_assoc. reflexivity.
Qed.

(** Calls spaced out by more than 300 ms are not collapsed: each one leads
    to its own execution, 300 ms after it. *)
Theorem debounce_spaced_calls_all_run
    (tie : bool) (first : Z) (rest : list Z) (T : Z)
    (Hspaced : spacedApart DEBOUNCE_TIME first rest)
    (HT : last rest first + 300 <= T) :
  executionsBy T (calls tie (first :: rest) init)
  = map (fun t => t + 300) (first :: rest).
Proof.
  cbn [calls]. unfold init at 1. unfold fire at 1. cbn [timeout].
  unfold debouncedUpdate, debounced. cbn [runs].
  rewrite (calls_spaced tie rest first [] Hspaced).
  unfold executionsBy, fire, DEBOUNCE_TIME. cbn [timeout runs app].
  destruct (Z.leb_spec (last rest first + 300) T); [| lia].
  cbn [runs]. unfold JsArray.push.
  change [last rest first + 300]
    with (map (fun u => u + 300) [last rest first]).
  rewrite <- map_app, <- last_cons with (d := first).
  rewrite <- app_removelast_last by discriminate. reflexivity.
Qed.

Lemma ascending_le (p : Z) (times : list Z) :
  ascending p times ->
  (forall t, In t times -> p <= t) /\ p <= last times p.
Proof.
  revert p. induction times as [| t1 times IH]; intros p H.
  - cbn. split; [tauto | lia].
  - destruct H as [H1 H]. destruct (IH t1 H) as [A B]. split.
    + intros t [<- | Ht]; [exact H1 |]. specialize (A t Ht). lia.
    + rewrite last_cons. lia.
Qed.

Lemma runs_sound (tie : bool) (T : Z) (times : list Z) (p : Z)
    (done : list Z) :
  ascending p times -> last times p <= T ->
  forall r,
    In r (executionsBy T
            (calls tie times
               {| timeout := Some (p + DEBOUNCE_TIME); runs := done |})) ->
    In r done \/
    (r <= T /\
     exists t, In t (p :: times) /\ r = t + 300 /\
       forall t', In t' (p :: times) -> ~ (t < t' < r)).
Proof.
  revert p done. induction times as [| t1 times IH]; intros p done Hasc HT r.
  - cbn [calls]. unfold executionsBy, fire, DEBOUNCE_TIME.
    cbn [timeout runs last] in *.
    destruct (Z.leb_spec (p + 300) T) as [Hdue | Hdue]; cbn [runs];
      [| now left].
    unfold JsArray.push. rewrite in_app_iff. cbn [In].
    intros [Hd | [<- | []]]; [now left | right].
    split; [exact Hdue |]. exists p. split; [now left |].
    split; [reflexivity |]. intros t' [<- | []]. lia.
  - destruct Hasc as [H1 Hasc]. rewrite last_cons in HT.
    destruct (ascending_le t1 times Hasc) as [A B].
    cbn [calls].
    assert (Ext : forall done',
      (In r done' \/
       (r <= T /\
        exists t, In t (t1 :: times) /\ r = t + 300 /\
          forall t', In t' (t1 :: times) -> ~ (t < t' < r))) ->
      (In r done' -> In r done \/ (r = p + 300 /\ p + 300 <= t1)) ->
      In r done \/
      (r <= T /\
       exists t, In t (p :: t1 :: times) /\ r = t + 300 /\
         forall t', In t' (p :: t1 :: times) -> ~ (t < t' < r))).
    { intros done' [Hd | (HrT & t & Ht & Er & Hq)] Hdone.
      - destruct (Hdone Hd) as [Hd' | [-> Hfired]]; [now left | right].
        split; [lia |]. exists p. split; [now left |].
        split; [reflexivity |].
        intros t' [<- | [<- | Ht']]; [lia | lia |].
        specialize (A t' Ht'). lia.
      - right. split; [exact HrT |]. exists t. split; [now right |].
        split; [exact Er |].
        intros t' [<- | Ht']; [| now apply Hq].
        assert (t1 <= t) by (destruct Ht as [<- | Ht]; [lia | now apply A]).
        lia. }
    unfold fire at 1. cbn [timeout runs].
    destruct (if tie then p + DEBOUNCE_TIME <=? t1
              else p + DEBOUNCE_TIME <? t1) eqn:Efire.
    + unfold debouncedUpdate, debounced. cbn [runs].
      intros Hr. apply (Ext (JsArray.push done (p + DEBOUNCE_TIME))).
      * now apply (IH t1 _ Hasc HT r).
      * unfold JsArray.push, DEBOUNCE_TIME in *. rewrite in_app_iff.
        cbn [In]. intros [H | [<- | []]]; [now left | right].
        split; [reflexivity |].
        destruct tie; [apply Z.leb_le in Efire | apply Z.ltb_lt in Efire];
          lia.
    + unfold debouncedUpdate, debounced. cbn [runs].
      intros Hr. apply (Ext done).
      * now apply (IH t1 _ Hasc HT r).
      * now left.
Qed.

(** The update never runs early.  For calls at any non-decreasing times,
    every execution seen by a time [T] after the last call happened exactly
    300 ms after one of the calls, with no other call in between, however
    the host orders simultaneous events. *)
Theorem debounce_runs_only_after_quiet_window
    (tie : bool) (first : Z) (rest : list Z) (T : Z)
    (Hasc : ascending first rest) (HT : last rest first <= T) (r : Z)
    (Hr : In r (executionsBy T (calls tie (first :: rest) init))) :
  r <= T /\
  exists t, In t (first :: rest) /\ r = t + 300 /\
    forall t', In t' (first :: rest) -> ~ (t < t' < r).
Proof.
  change (calls tie (first :: rest) init)
    with (calls tie rest
            {| timeout := Some (first + DEBOUNCE_TIME); runs := [] |}) in Hr.
  destruct (runs_sound tie T rest first [] Hasc HT r Hr) as [[] | H].
  exact H.
Qed.

(** Three calls a second apart: three executions. *)
Lemma debounce_spaced_calls_all_run_witness :
  executionsBy 5000 (calls true [0; 1000; 2000] init) = [300; 1300; 2300].
Proof.
  apply (debounce_spaced_calls_all_run true 0 [1000; 2000] 5000).
  - cbn. unfold DEBOUNCE_TIME. lia.
  - cbn. lia.
Defined.

(** Calls at 0, 100 and 1000 ms: the execution at 400 ms follows the call
    at 100 ms. *)
Lemma debounce_runs_only_after_quiet_window_witness :
  exists t, In t [0; 100; 1000] /\ 400 = t + 300.
Proof.
  destruct (debounce_runs_only_after_quiet_window true 0 [100; 1000] 5000
              ltac:(cbn; lia) ltac:(cbn; lia) 400 ltac:(cbn; auto))
    as (_ & t & Ht & E & _).
  exists t. exact (conj Ht E).
Defined.

End DebounceMoreFacts.


(* ================================================================= *)
(** * Undo, redo and the handlers that run while a snapshot loads *)

Module SessionFacts.
Import JsArray JsArrayFacts History HistoryFacts Session.
Local Open Scope nat_scope.

Section Facts.

Variable Scene : Type.
Variable Snapshot : Type.
Variable toJSON : Scene -> Snapshot.
Variable loadFromJSON : Scene -> Snapshot -> Scene.
Variable loadEvents : Scene -> Snapshot -> list Scene.

Local Abbreviation Designer := (Designer Scene Snapshot).
Local Abbreviation save := (saveHistory toJSON).
Local Abbreviation load := (loadIntoCanvas toJSON loadFromJSON loadEvents).
Local Abbreviation undo' := (undo toJSON loadFromJSON loadEvents).
Local Abbreviation redo' := (redo toJSON loadFromJSON loadEvents).
Local Abbreviation Op := (Op Scene Snapshot).

Lemma snapshots_total (scenes : list Scene) (d : Designer) :
  length (history d) + length (redoHistory d) <= 50 ->
  length (history (snapshots toJSON scenes d))
  + length (redoHistory (snapshots toJSON scenes d)) <= 50.
Proof.
  induction scenes as [| s scenes IH] using rev_ind; intros H; [exact H |].
  rewrite snapshots_snoc. specialize (IH H).
  pose proof (saveHistory_keeps_cap _ _ toJSON
                (mutate (fun _ => s) (snapshots toJSON scenes d))) as K.
  cbn [mutate history redoHistory saveHistory] in *.
  cbn [length]. rewrite Nat.add_0_r. apply K. lia.
Qed.

Lemma snapshots_redo_nil (scenes : list Scene) (d : Designer) :
  scenes <> [] -> redoHistory (snapshots toJSON scenes d) = [].
Proof.
  destruct scenes as [| s scenes] using rev_ind; [congruence |].
  intros _. now rewrite snapshots_snoc.
Qed.

Lemma snapshots_length_full (scenes : list Scene) (d : Designer) :
  50 <= length (history d) ->
  length (history (snapshots toJSON scenes d)) = length (history d).
Proof.
  intros H. induction scenes as [| s scenes IH] using rev_ind;
    [reflexivity |].
  rewrite snapshots_snoc, saveHistory_length. cbn [mutate history].
  rewrite IH. destruct (Nat.leb_spec 50 (length (history d))); lia.
Qed.

Lemma snapshots_nonempty (scenes : list Scene) (d : Designer) :
  1 <= length (history d) ->
  1 <= length (history (snapshots toJSON scenes d)).
Proof.
  intros H. induction scenes as [| s scenes IH] using rev_ind; [exact H |].
  rewrite snapshots_snoc, saveHistory_length. cbn [mutate history].
  destruct (Nat.leb_spec 50 (length (history (snapshots toJSON scenes d))));
    lia.
Qed.

Lemma snapshots_last (scenes : list Scene) (s : Scene) (d : Designer) :
  top (history (snapshots toJSON (scenes ++ [s]) d)) = Some (toJSON s) /\
  canvas (snapshots toJSON (scenes ++ [s]) d) = s.
Proof.
  rewrite snapshots_snoc, saveHistory_top. auto.
Qed.

(** The two snapshots that end a run of at least two. *)
Lemma snapshots_last_two (scenes : list Scene) (a b : Scene) (d : Designer) :
  exists h,
    snapshots toJSON (scenes ++ [a; b]) d =
    {| canvas := b;
       history := push (push h (toJSON a)) (toJSON b);
       redoHistory := [] |}.
Proof.
  change (scenes ++ [a; b]) with (scenes ++ [a] ++ [b]).
  rewrite app_assoc, !snapshots_snoc.
  destruct (two_snapshots _ _ toJSON (fun _ => b)
              (mutate (fun _ => a) (snapshots toJSON scenes d))) as [h H].
  exists h. exact H.
Qed.

Lemma undo_two (c : Scene) (h r : list Snapshot) (below popped : Snapshot) :
  undo' {| canvas := c; history := push (push h below) popped;
           redoHistory := r |}
  = load {| canvas := c; history := push h below;
            redoHistory := push r popped |} below.
Proof.
  unfold undo. cbn [history canvas redoHistory].
  rewrite !length_push. cbn [Nat.ltb Nat.leb].
  now rewrite pop_push, top_push.
Qed.

Lemma redo_nonempty (c : Scene) (h r : list Snapshot) (state : Snapshot) :
  redo' {| canvas := c; history := h; redoHistory := push r state |}
  = load {| canvas := c; history := push h (toJSON c); redoHistory := r |}
         state.
Proof.
  unfold redo. cbn [history canvas redoHistory].
  rewrite length_push. cbn [Nat.ltb Nat.leb].
  now rewrite pop_push.
Qed.

Lemma load_total (d : Designer) (state : Snapshot) :
  length (history d) + length (redoHistory d) <= 50 ->
  length (history (load d state)) + length (redoHistory (load d state)) <= 50.
Proof.
  intros H. unfold loadIntoCanvas. cbn [mutate history redoHistory].
  now apply snapshots_total.
Qed.

(** Every operation keeps the two stacks together within the cap. *)
Lemma step_total (d : Designer) (op : Op) :
  length (history d) + length (redoHistory d) <= 50 ->
  length (history (step toJSON loadFromJSON loadEvents d op))
  + length (redoHistory (step toJSON loadFromJSON loadEvents d op)) <= 50.
Proof.
  intros H. destruct op as [A | | | rebuild | version]; cbn [step].
  - pose proof (saveHistory_keeps_cap _ _ toJSON (mutate A d)) as K.
    cbn [mutate history redoHistory saveHistory] in *.
    cbn [length]. rewrite Nat.add_0_r. apply K. lia.
  - destruct d as [c h r]. cbn [history redoHistory] in H.
    unfold undo. cbn [history redoHistory canvas].
    destruct (Nat.ltb_spec 1 (length h)); [| cbn; lia].
    destruct (pop_nonempty h) as [x [h' [Hp ->]]].
    { apply length_pos_nonempty. lia. }
    rewrite Hp. rewrite length_push in H.
    destruct (top h'); [apply load_total |];
      cbn [history redoHistory]; rewrite length_push; lia.
  - destruct d as [c h r]. cbn [history redoHistory] in H.
    unfold redo. cbn [history redoHistory canvas].
    destruct (Nat.ltb_spec 0 (length r)); [| cbn; lia].
    destruct (pop_nonempty r) as [x [r' [Hp ->]]].
    { apply length_pos_nonempty. lia. }
    rewrite Hp. rewrite length_push in H.
    apply load_total. cbn [history redoHistory]. rewrite length_push. lia.
  - cbn. lia.
  - now apply load_total.
Qed.

Lemma run_total (ops : list Op) (d : Designer) :
  length (history d) + length (redoHistory d) <= 50 ->
  length (history (run toJSON loadFromJSON loadEvents ops d))
  + length (redoHistory (run toJSON loadFromJSON loadEvents ops d)) <= 50.
Proof.
  unfold run. revert d. induction ops as [| op ops IH]; intros d H;
    [exact H |].
  cbn [fold_left]. apply IH. now apply step_total.
Qed.

(** Whatever the user does from empty stacks (mutations, undo, redo, reset,
    loading a version, in any order), the two stacks together never hold
    more than 50 entries. *)
Theorem session_stacks_bounded (ops : list Op) (s0 : Scene) :
  let d := run toJSON loadFromJSON loadEvents ops (fresh s0) in
  length (history d) + length (redoHistory d) <= 50.
Proof. cbn zeta. apply run_total. cbn. lia. Qed.


(** Underflow.  The undo handler does nothing to a history of fewer than two
    entries, and never leaves the undo stack empty; on a longer history it
    takes the top entry off, puts it on the redo stack and loads the entry
    below, with the handlers that run during the load.  [redo] does nothing
    when the redo stack is empty. *)
Theorem undo_redo_underflow (d : Designer) :
  (length (history d) <= 1 -> undo' d = d) /\
  (2 <= length (history d) ->
     exists below popped h,
       history d = push (push h below) popped /\
       undo' d = load {| canvas := canvas d; history := push h below;
                         redoHistory := push (redoHistory d) popped |}
                      below /\
       canvas (undo' d) = loadFromJSON (canvas d) below) /\
  (1 <= length (history d) -> 1 <= length (history (undo' d))) /\
  (redoHistory d = [] -> redo' d = d).
Proof.
  assert (Two : 2 <= length (history d) ->
     exists below popped h,
       history d = push (push h below) popped /\
       undo' d = load {| canvas := canvas d; history := push h below;
                         redoHistory := push (redoHistory d) popped |}
                      below /\
       canvas (undo' d) = loadFromJSON (canvas d) below).
  { intros H. destruct d as [c h r]. cbn [history redoHistory canvas] in *.
    destruct (pop_nonempty h) as [popped [h1 [_ E1]]].
    { apply length_pos_nonempty. lia. }
    subst h. rewrite length_push in H.
    destruct (pop_nonempty h1) as [below [h0 [_ E0]]].
    { apply length_pos_nonempty. lia. }
    subst h1. exists below, popped, h0. rewrite undo_two. auto. }
  split; [| split; [exact Two | split]].
  - intros H. unfold undo.
    destruct (Nat.ltb_spec 1 (length (history d))); [lia | reflexivity].
  - intros H. destruct (Nat.le_gt_cases 2 (length (history d))) as [L | L].
    + destruct (Two L) as (below & popped & h & _ & E & _).
      rewrite E. unfold loadIntoCanvas. cbn [mutate history].
      apply snapshots_nonempty. cbn [history]. rewrite length_push. lia.
    + unfold undo.
      destruct (Nat.ltb_spec 1 (length (history d))); [lia | exact H].
  - intros H. unfold redo. now rewrite H.
Qed.

Lemma undo_with_events
    (c : Scene) (h r : list Snapshot) (below popped : Snapshot) :
  loadEvents c below <> [] ->
  let d := {| canvas := c; history := push (push h below) popped;
              redoHistory := r |} in
  redoHistory (undo' d) = [] /\ redo' (undo' d) = undo' d.
Proof.
  intros Hevents. cbn zeta. rewrite undo_two. unfold loadIntoCanvas.
  cbn [mutate redoHistory].
  assert (R : redoHistory
                (snapshots toJSON (loadEvents c below)
                   {| canvas := c; history := push h below;
                      redoHistory := push r popped |}) = [])
    by now apply snapshots_redo_nil.
  split; [exact R |]. unfold redo. cbn [mutate redoHistory canvas].
  now rewrite R.
Qed.

(** An undo whose load runs a handler leaves nothing to redo.  From a stack
    of at least two entries, when loading the entry below the top runs at
    least one handler, the scene after the click is the loaded one, the redo
    stack is empty, the top of the undo stack is the snapshot taken by the
    last handler, and a click on redo changes nothing. *)
Theorem undo_leaves_nothing_to_redo
    (c : Scene) (h r : list Snapshot) (below popped : Snapshot)
    (Hevents : loadEvents c below <> []) :
  let d := {| canvas := c; history := push (push h below) popped;
              redoHistory := r |} in
  canvas (undo' d) = loadFromJSON c below /\
  redoHistory (undo' d) = [] /\
  top (history (undo' d)) = Some (toJSON (last (loadEvents c below) c)) /\
  redo' (undo' d) = undo' d.
Proof.
  cbn zeta.
  destruct (undo_with_events c h r below popped Hevents) as [R N].
  split; [| split; [exact R | split; [| exact N]]];
    rewrite undo_two; unfold loadIntoCanvas; cbn [canvas mutate history].
  - reflexivity.
  - destruct (exists_last Hevents) as (evs & e & E). rewrite E.
    rewrite (proj1 (snapshots_last evs e _)), last_last. reflexivity.
Qed.



End Facts.

Local Abbreviation idUndo :=
  (undo Samples.idToJSON Samples.idLoadFromJSON Samples.idLoadEvents).
Local Abbreviation idRedo :=
  (redo Samples.idToJSON Samples.idLoadFromJSON Samples.idLoadEvents).

(** C4 (failing input). A scene holding object 1, a snapshot, the addition
    of object 2, a snapshot, then a click on undo and one on redo.  The undo
    shows the scene of the first snapshot again, but its load has run the
    handlers three times (object 1 removed, object 2 removed, object 1
    inserted), each taking a snapshot and emptying the redo stack: the redo
    changes nothing and the scene with both objects is not restored. *)
Theorem undo_redo_round_trip_evaluated :
  let d1 := saveHistory Samples.idToJSON (fresh [1]) in
  let d2 := saveHistory Samples.idToJSON (mutate (Samples.addObject 2) d1) in
  let d3 := idUndo d2 in
  let d4 := idRedo d3 in
  canvas d1 = [1] /\ history d1 = [[1]] /\
  canvas d2 = [1; 2] /\ history d2 = [[1]; [1; 2]] /\
  canvas d3 = [1] /\
  history d3 = [[1]; [2]; []; [1]] /\ redoHistory d3 = [] /\
  d4 = d3 /\ canvas d4 <> [1; 2].
Proof. vm_compute. repeat split. discriminate. Qed.



(** Undo on a single entry and redo on an empty redo stack change
    nothing. *)
Lemma undo_redo_underflow_witness :
  idUndo Samples.oneObject = Samples.oneObject /\
  idRedo Samples.oneObject = Samples.oneObject.
Proof.
  destruct (undo_redo_underflow _ _ Samples.idToJSON Samples.idLoadFromJSON
              Samples.idLoadEvents Samples.oneObject) as (U & _ & _ & R).
  split; [apply U; cbn; lia | apply R; reflexivity].
Defined.

(** The undo of the addition of object 2 to the scene [[1]]. *)
Lemma undo_leaves_nothing_to_redo_witness :
  let d := {| canvas := [1; 2]; history := push (push [] [1]) [1; 2];
              redoHistory := [] |} in
  canvas (idUndo d) = [1] /\ redoHistory (idUndo d) = [] /\
  idRedo (idUndo d) = idUndo d.
Proof.
  destruct (undo_leaves_nothing_to_redo _ _ Samples.idToJSON
              Samples.idLoadFromJSON Samples.idLoadEvents
              [1; 2] [] [] [1] [1; 2] ltac:(discriminate))
    as (C & R & _ & N).
  exact (conj C (conj R N)).
Defined.



End SessionFacts.
